(** * Motion-activated LED strip controller (led_strip_final.ino)

    A shallow embedding of the Arduino sketch and the properties of its
    light classifier, motion detector, actuator coordinator, watchdog and
    scheduler.

    Target: ATmega328 boards (Arduino UNO / Nano, as listed in the readme):
    [int] is 16 bits wide, [unsigned long] is 32 bits wide.  Signed
    arithmetic is modelled with two's complement wrap-around (what avr-gcc
    produces), unsigned arithmetic is modulo 2^32. *)

From Stdlib Require Import ZArith List Bool Lia.
Import ListNotations.
Local Open Scope Z_scope.

(** ** Machine integers *)

Module MachineInt.

Definition int_modulus : Z := 65536.
Definition int_max : Z := 32767.
Definition int_min : Z := -32768.
Definition ulong_modulus : Z := 4294967296.

(** Value of a mathematical integer once stored in an [int]. *)
Definition to_int (z : Z) : Z := (z + 32768) mod int_modulus - 32768.

(** Value of a mathematical integer once stored in (or converted to) an
    [unsigned long]. *)
Definition to_ulong (z : Z) : Z := z mod ulong_modulus.

Definition is_int (z : Z) : Prop := int_min <= z <= int_max.
Definition is_ulong (z : Z) : Prop := 0 <= z < ulong_modulus.

Definition int_add (a b : Z) : Z := to_int (a + b).
Definition int_sub (a b : Z) : Z := to_int (a - b).
(** C division and remainder truncate towards zero. *)
Definition int_div (a b : Z) : Z := to_int (Z.quot a b).
Definition int_rem (a b : Z) : Z := to_int (Z.rem a b).

Definition ulong_add (a b : Z) : Z := to_ulong (a + b).
Definition ulong_sub (a b : Z) : Z := to_ulong (a - b).

(** [bool] promoted to [int]. *)
Definition of_bool (b : bool) : Z := if b then 1 else 0.

End MachineInt.
Import MachineInt.

(** ** Constants of the sketch *)

Definition PIR_PIN : Z := 12.
Definition LED_PIN : Z := 8.
(** [A0] is the board's macro for the first analog pin; it is 14 on the
    ATmega328 boards. *)
Definition A0 : Z := 14.
Definition LDR_PIN : Z := A0.

Definition TIMEOUT : Z := 5000.
Definition CHECK_TIME : Z := 4000.
Definition DEBOUNCE_TIME : Z := 200.
Definition DEBOUNCE_READS : Z := 3.
Definition LDR_CHECK_INTERVAL : Z := 1000.

Definition numReadings : Z := 3.
Definition hysteresis : Z := 20.

Definition DEBUG : bool := true.

Definition LDR_FAST_INTERVAL : Z := 1000.
Definition LDR_SLOW_INTERVAL : Z := 10000.
Definition LIGHT_HISTORY_THRESHOLD : Z := 5.

Definition LDR_LOCKOUT_PERIOD : Z := 6.

Definition HIGH : Z := 1.
Definition LOW : Z := 0.

(** ** Global variables of the sketch *)

Record State : Type := mkState {
  consecutiveLightReadings : Z;   (* int *)
  currentLdrInterval : Z;         (* int *)
  motionDetected : bool;
  motionStartTime : Z;            (* unsigned long *)
  lastSerialTime : Z;             (* unsigned long *)
  lastWatchdogCheck : Z;          (* unsigned long *)
  ldrReadings : list Z;           (* int [numReadings] *)
  readIndex : Z;                  (* int *)
  ldrTotal : Z;                   (* int *)
  ldrAverage : Z;                 (* int *)
  ldrThreshold : Z;               (* int *)
  isDark : bool;
  lastLdrCheck : Z;               (* unsigned long *)
  ledsEnabled : bool;
  ledOnTime : Z                   (* unsigned long *)
}.

(** The initialisers of the global declarations (lines 24-45); the array
    has static storage and starts zeroed. *)
Definition initState : State := {|
  consecutiveLightReadings := 0;
  currentLdrInterval := LDR_FAST_INTERVAL;
  motionDetected := false;
  motionStartTime := 0;
  lastSerialTime := 0;
  lastWatchdogCheck := 0;
  ldrReadings := [0; 0; 0];
  readIndex := 0;
  ldrTotal := 0;
  ldrAverage := 0;
  ldrThreshold := 0;
  isDark := false;
  lastLdrCheck := 0;
  ledsEnabled := false;
  ledOnTime := 0
|}.

(** Assignment to a single global: every other variable keeps its value. *)

Definition set_consecutiveLightReadings (v : Z) (s : State) : State :=
  mkState v (currentLdrInterval s) (motionDetected s) (motionStartTime s)
    (lastSerialTime s) (lastWatchdogCheck s) (ldrReadings s) (readIndex s)
    (ldrTotal s) (ldrAverage s) (ldrThreshold s) (isDark s)
    (lastLdrCheck s) (ledsEnabled s) (ledOnTime s).

Definition set_currentLdrInterval (v : Z) (s : State) : State :=
  mkState (consecutiveLightReadings s) v (motionDetected s)
    (motionStartTime s) (lastSerialTime s) (lastWatchdogCheck s)
    (ldrReadings s) (readIndex s) (ldrTotal s) (ldrAverage s)
    (ldrThreshold s) (isDark s) (lastLdrCheck s) (ledsEnabled s)
    (ledOnTime s).

Definition set_motionDetected (v : bool) (s : State) : State :=
  mkState (consecutiveLightReadings s) (currentLdrInterval s) v
    (motionStartTime s) (lastSerialTime s) (lastWatchdogCheck s)
    (ldrReadings s) (readIndex s) (ldrTotal s) (ldrAverage s)
    (ldrThreshold s) (isDark s) (lastLdrCheck s) (ledsEnabled s)
    (ledOnTime s).

Definition set_motionStartTime (v : Z) (s : State) : State :=
  mkState (consecutiveLightReadings s) (currentLdrInterval s)
    (motionDetected s) v (lastSerialTime s) (lastWatchdogCheck s)
    (ldrReadings s) (readIndex s) (ldrTotal s) (ldrAverage s)
    (ldrThreshold s) (isDark s) (lastLdrCheck s) (ledsEnabled s)
    (ledOnTime s).

Definition set_lastSerialTime (v : Z) (s : State) : State :=
  mkState (consecutiveLightReadings s) (currentLdrInterval s)
    (motionDetected s) (motionStartTime s) v (lastWatchdogCheck s)
    (ldrReadings s) (readIndex s) (ldrTotal s) (ldrAverage s)
    (ldrThreshold s) (isDark s) (lastLdrCheck s) (ledsEnabled s)
    (ledOnTime s).

Definition set_lastWatchdogCheck (v : Z) (s : State) : State :=
  mkState (consecutiveLightReadings s) (currentLdrInterval s)
    (motionDetected s) (motionStartTime s) (lastSerialTime s) v
    (ldrReadings s) (readIndex s) (ldrTotal s) (ldrAverage s)
    (ldrThreshold s) (isDark s) (lastLdrCheck s) (ledsEnabled s)
    (ledOnTime s).

Definition set_ldrReadings (v : list Z) (s : State) : State :=
  mkState (consecutiveLightReadings s) (currentLdrInterval s)
    (motionDetected s) (motionStartTime s) (lastSerialTime s)
    (lastWatchdogCheck s) v (readIndex s) (ldrTotal s) (ldrAverage s)
    (ldrThreshold s) (isDark s) (lastLdrCheck s) (ledsEnabled s)
    (ledOnTime s).

Definition set_readIndex (v : Z) (s : State) : State :=
  mkState (consecutiveLightReadings s) (currentLdrInterval s)
    (motionDetected s) (motionStartTime s) (lastSerialTime s)
    (lastWatchdogCheck s) (ldrReadings s) v (ldrTotal s) (ldrAverage s)
    (ldrThreshold s) (isDark s) (lastLdrCheck s) (ledsEnabled s)
    (ledOnTime s).

Definition set_ldrTotal (v : Z) (s : State) : State :=
  mkState (consecutiveLightReadings s) (currentLdrInterval s)
    (motionDetected s) (motionStartTime s) (lastSerialTime s)
    (lastWatchdogCheck s) (ldrReadings s) (readIndex s) v (ldrAverage s)
    (ldrThreshold s) (isDark s) (lastLdrCheck s) (ledsEnabled s)
    (ledOnTime s).

Definition set_ldrAverage (v : Z) (s : State) : State :=
  mkState (consecutiveLightReadings s) (currentLdrInterval s)
    (motionDetected s) (motionStartTime s) (lastSerialTime s)
    (lastWatchdogCheck s) (ldrReadings s) (readIndex s) (ldrTotal s) v
    (ldrThreshold s) (isDark s) (lastLdrCheck s) (ledsEnabled s)
    (ledOnTime s).

Definition set_ldrThreshold (v : Z) (s : State) : State :=
  mkState (consecutiveLightReadings s) (currentLdrInterval s)
    (motionDetected s) (motionStartTime s) (lastSerialTime s)
    (lastWatchdogCheck s) (ldrReadings s) (readIndex s) (ldrTotal s)
    (ldrAverage s) v (isDark s) (lastLdrCheck s) (ledsEnabled s)
    (ledOnTime s).

Definition set_isDark (v : bool) (s : State) : State :=
  mkState (consecutiveLightReadings s) (currentLdrInterval s)
    (motionDetected s) (motionStartTime s) (lastSerialTime s)
    (lastWatchdogCheck s) (ldrReadings s) (readIndex s) (ldrTotal s)
    (ldrAverage s) (ldrThreshold s) v (lastLdrCheck s) (ledsEnabled s)
    (ledOnTime s).

Definition set_lastLdrCheck (v : Z) (s : State) : State :=
  mkState (consecutiveLightReadings s) (currentLdrInterval s)
    (motionDetected s) (motionStartTime s) (lastSerialTime s)
    (lastWatchdogCheck s) (ldrReadings s) (readIndex s) (ldrTotal s)
    (ldrAverage s) (ldrThreshold s) (isDark s) v (ledsEnabled s)
    (ledOnTime s).

Definition set_ledsEnabled (v : bool) (s : State) : State :=
  mkState (consecutiveLightReadings s) (currentLdrInterval s)
    (motionDetected s) (motionStartTime s) (lastSerialTime s)
    (lastWatchdogCheck s) (ldrReadings s) (readIndex s) (ldrTotal s)
    (ldrAverage s) (ldrThreshold s) (isDark s) (lastLdrCheck s) v
    (ledOnTime s).

Definition set_ledOnTime (v : Z) (s : State) : State :=
  mkState (consecutiveLightReadings s) (currentLdrInterval s)
    (motionDetected s) (motionStartTime s) (lastSerialTime s)
    (lastWatchdogCheck s) (ldrReadings s) (readIndex s) (ldrTotal s)
    (ldrAverage s) (ldrThreshold s) (isDark s) (lastLdrCheck s)
    (ledsEnabled s) v.

(** ** The board: clock, pins and the diagnostic sink *)

(** Lines the sketch prints on the serial port. *)
Inductive Msg : Type :=
| MsgSystemBanner                  (* "Combined PIR Motion & LDR Light Sensor System Ready..." *)
| MsgPirStabilizing                (* "PIR sensor stabilizing..." *)
| MsgSystemReady                   (* "System ready!" *)
| MsgMotionDetected                (* "Motion detected!" *)
| MsgMotionExtended                (* "Motion still detected, extending time..." *)
| MsgNoMotion                      (* "No motion detected for full cycle." *)
| MsgLdrAverage (avg thr : Z)      (* "LDR Average: <avg> (Threshold: <thr>)" *)
| MsgDarkDetected                  (* "Dark environment detected" *)
| MsgLightDetected                 (* "Light environment detected" *)
| MsgWatchdogReset                 (* "Watchdog reset - inconsistent LED state detected" *)
| MsgSlowMode                      (* "Consistently bright environment detected, reducing LDR check frequency" *)
| MsgLedsOffBright                 (* "LEDs OFF - Room is bright" *)
| MsgFastMode                      (* "Dark environment detected, increasing LDR check frequency" *)
| MsgLedsOn                        (* "LEDs ON - Dark + Motion" *)
| MsgLedsOffNoMotion.              (* "LEDs OFF - No motion" *)

(** What the sketch does to the outside, in the order it does it. *)
Inductive Event : Type :=
| EvPinMode (pin : Z) (output : bool)
| EvSerialBegin (baud : Z)
| EvDigitalRead (pin : Z) (level : Z)
| EvDigitalWrite (pin : Z) (level : Z)
| EvAnalogRead (pin : Z) (value : Z)
| EvDelay (ms : Z)
| EvPrint (m : Msg).

(** The part of the board the sketch can observe.  The sensor lines are
    given by the sample number: the k-th read of a line returns its k-th
    value. *)
Record World : Type := mkWorld {
  clock : Z;               (* what millis() returns, an unsigned long *)
  ledLevel : bool;         (* level of the LED_PIN output latch *)
  pirLine : nat -> bool;   (* levels of the PIR line *)
  pirSamples : nat;        (* digital reads of the PIR line so far *)
  ldrLine : nat -> Z;      (* conversions of the LDR line *)
  ldrSamples : nat         (* analog reads so far *)
}.

(** ** Programs: state passing with an event log *)

Record Result (A : Type) : Type := mkResult {
  value : A;
  vars : State;
  env : World;
  events : list Event
}.
Arguments mkResult {A} _ _ _ _.
Arguments value {A} _.
Arguments vars {A} _.
Arguments env {A} _.
Arguments events {A} _.

Definition M (A : Type) : Type := State -> World -> Result A.

Definition ret {A} (a : A) : M A := fun s w => mkResult a s w [].

Definition bind {A B} (m : M A) (k : A -> M B) : M B :=
  fun s w =>
    match m s w with
    | mkResult a s1 w1 e1 =>
        match k a s1 w1 with
        | mkResult b s2 w2 e2 => mkResult b s2 w2 (e1 ++ e2)
        end
    end.

Declare Scope prog_scope.
Delimit Scope prog_scope with prog.
Notation "x <- m ;; k" := (bind m (fun x => k))
  (at level 61, m at next level, right associativity) : prog_scope.
Notation "m ;; k" := (bind m (fun _ => k))
  (at level 61, right associativity) : prog_scope.
Local Open Scope prog_scope.

(** Read an expression over the globals. *)
Definition rd {A} (e : State -> A) : M A := fun s w => mkResult (e s) s w [].

(** Assign to a global; the right-hand side may read the globals. *)
Definition assign {A} (set : A -> State -> State) (e : State -> A) : M unit :=
  fun s w => mkResult tt (set (e s) s) w [].

Definition skip : M unit := ret tt.

(** [if (c) { body }] *)
Definition when (c : bool) (body : M unit) : M unit :=
  if c then body else skip.

(** *** Arduino core functions *)

Definition millis : M Z := fun s w => mkResult (clock w) s w [].

Definition delay (ms : Z) : M unit :=
  fun s w =>
    mkResult tt s
      (mkWorld (ulong_add (clock w) ms) (ledLevel w) (pirLine w)
         (pirSamples w) (ldrLine w) (ldrSamples w))
      [EvDelay ms].

Definition pinMode (pin : Z) (output : bool) : M unit :=
  fun s w => mkResult tt s w [EvPinMode pin output].

Definition Serial_begin (baud : Z) : M unit :=
  fun s w => mkResult tt s w [EvSerialBegin baud].

Definition Serial_println (m : Msg) : M unit :=
  fun s w => mkResult tt s w [EvPrint m].

(** [if (DEBUG) Serial.println(...)] *)
Definition debug (m : Msg) : M unit := when DEBUG (Serial_println m).

(** Reading the output pin gives back the latch; reading the PIR pin takes
    the next sample of the line.  No other pin is read by the sketch. *)
Definition digitalRead (pin : Z) : M Z :=
  fun s w =>
    if pin =? LED_PIN then
      mkResult (of_bool (ledLevel w)) s w
        [EvDigitalRead pin (of_bool (ledLevel w))]
    else if pin =? PIR_PIN then
      let v := of_bool (pirLine w (pirSamples w)) in
      mkResult v s
        (mkWorld (clock w) (ledLevel w) (pirLine w) (S (pirSamples w))
           (ldrLine w) (ldrSamples w))
        [EvDigitalRead pin v]
    else mkResult LOW s w [EvDigitalRead pin LOW].

Definition digitalWrite (pin : Z) (level : Z) : M unit :=
  fun s w =>
    if pin =? LED_PIN then
      mkResult tt s
        (mkWorld (clock w) (negb (level =? LOW)) (pirLine w) (pirSamples w)
           (ldrLine w) (ldrSamples w))
        [EvDigitalWrite pin level]
    else mkResult tt s w [EvDigitalWrite pin level].

(** [analogRead] returns an [int]. *)
Definition analogRead (pin : Z) : M Z :=
  fun s w =>
    let v := to_int (ldrLine w (ldrSamples w)) in
    mkResult v s
      (mkWorld (clock w) (ledLevel w) (pirLine w) (pirSamples w) (ldrLine w)
         (S (ldrSamples w)))
      [EvAnalogRead pin v].

(** *** The array [ldrReadings] *)

Definition arr_get (a : list Z) (i : Z) : Z := nth (Z.to_nat i) a 0.

Fixpoint arr_put (a : list Z) (i : nat) (v : Z) : list Z :=
  match a, i with
  | [], _ => []
  | _ :: t, O => v :: t
  | h :: t, S j => h :: arr_put t j v
  end.

Definition arr_set (a : list Z) (i : Z) (v : Z) : list Z :=
  arr_put a (Z.to_nat i) v.

(** ** The sketch *)

(** [checkLight], lines 174-201. *)
Definition checkLight : M unit :=
  (* Remove oldest reading *)
  assign set_ldrTotal
    (fun s => int_sub (ldrTotal s) (arr_get (ldrReadings s) (readIndex s))) ;;
  (* Read new value and update moving average *)
  v <- analogRead LDR_PIN ;;
  assign set_ldrReadings (fun s => arr_set (ldrReadings s) (readIndex s) v) ;;
  assign set_ldrTotal
    (fun s => int_add (ldrTotal s) (arr_get (ldrReadings s) (readIndex s))) ;;
  assign set_readIndex (fun s => int_rem (int_add (readIndex s) 1) numReadings) ;;
  assign set_ldrAverage (fun s => int_div (ldrTotal s) numReadings) ;;
  avg <- rd ldrAverage ;;
  thr <- rd ldrThreshold ;;
  debug (MsgLdrAverage avg thr) ;;
  (* Update darkness state with hysteresis *)
  dark <- rd isDark ;;
  if negb dark && (avg <=? int_sub thr hysteresis) then
    assign set_isDark (fun _ => true) ;;
    debug MsgDarkDetected
  else if dark && (int_add thr hysteresis <=? avg) then
    assign set_isDark (fun _ => false) ;;
    debug MsgLightDetected
  else skip.

(** [calibrateLDR], lines 77-98: the threshold is fixed, then one
    classification pass. *)
Definition calibrateLDR : M unit :=
  assign set_ldrThreshold (fun _ => 30) ;;
  checkLight.

(** The body of the [for] loop of [debounceMotion], run [n] more times with
    the local [motionCount]. *)
Fixpoint debounceReads (n : nat) (motionCount : Z) : M Z :=
  match n with
  | O => ret motionCount
  | S n' =>
      level <- digitalRead PIR_PIN ;;
      let motionCount' :=
        if level =? HIGH then int_add motionCount 1 else motionCount in
      delay (int_div DEBOUNCE_TIME DEBOUNCE_READS) ;;
      debounceReads n' motionCount'
  end.

(** [debounceMotion], lines 102-115. *)
Definition debounceMotion : M bool :=
  motionCount <- debounceReads (Z.to_nat DEBOUNCE_READS) 0 ;;
  (* Return true if majority of readings show motion *)
  ret (int_div DEBOUNCE_READS 2 <? motionCount).

(** [if (DEBUG && (currentMillis - lastSerialTime > 1000)) { println; stamp }] *)
Definition throttledPrint (currentMillis : Z) (m : Msg) : M unit :=
  lastPrint <- rd lastSerialTime ;;
  when (DEBUG && (to_ulong 1000 <? ulong_sub currentMillis lastPrint))
    (Serial_println m ;;
     assign set_lastSerialTime (fun _ => currentMillis)).

(** [checkMotion], lines 119-170. *)
Definition checkMotion : M unit :=
  currentMillis <- millis ;;
  (* millis() rolled over: restart the timer *)
  start0 <- rd motionStartTime ;;
  when (currentMillis <? start0)
    (assign set_motionStartTime (fun _ => currentMillis)) ;;
  (* Only check motion when needed *)
  detected <- rd motionDetected ;;
  start <- rd motionStartTime ;;
  let elapsed := ulong_sub currentMillis start in
  motionNow <-
    (if negb detected
        || (detected && (to_ulong CHECK_TIME <=? elapsed)
                     && (elapsed <? to_ulong TIMEOUT))
     then debounceMotion
     else ret false) ;;
  if negb detected && motionNow then
    (* New motion detected *)
    assign set_motionDetected (fun _ => true) ;;
    assign set_motionStartTime (fun _ => currentMillis) ;;
    throttledPrint currentMillis MsgMotionDetected
  else if detected then
    (* Already in a motion cycle *)
    if (to_ulong CHECK_TIME <=? elapsed) && (elapsed <? to_ulong TIMEOUT)
       && motionNow
    then
      (* Motion still present at check time - extend timer *)
      assign set_motionStartTime (fun _ => currentMillis) ;;
      throttledPrint currentMillis MsgMotionExtended
    else if to_ulong TIMEOUT <=? elapsed then
      (* Timeout reached *)
      assign set_motionDetected (fun _ => false) ;;
      throttledPrint currentMillis MsgNoMotion
    else skip
  else skip.

(** [runWatchdog], lines 205-221. *)
Definition runWatchdog : M unit :=
  currentMillis <- millis ;;
  lastCheck <- rd lastWatchdogCheck ;;
  when (to_ulong 30000 <? ulong_sub currentMillis lastCheck)
    (assign set_lastWatchdogCheck (fun _ => currentMillis) ;;
     (* Fix inconsistent LED states *)
     level <- digitalRead LED_PIN ;;
     enabled <- rd ledsEnabled ;;
     when (negb (of_bool enabled =? level))
       (digitalWrite LED_PIN (if enabled then HIGH else LOW) ;;
        debug MsgWatchdogReset)).

(** The body of the [for] loop of [setup] that fills the array, from index
    [i], [n] more times (lines 61-64). *)
Fixpoint fillReadings (n : nat) (i : Z) : M unit :=
  match n with
  | O => skip
  | S n' =>
      v <- analogRead LDR_PIN ;;
      assign set_ldrReadings (fun s => arr_set (ldrReadings s) i v) ;;
      assign set_ldrTotal
        (fun s => int_add (ldrTotal s) (arr_get (ldrReadings s) i)) ;;
      fillReadings n' (int_add i 1)
  end.

(** [setup], lines 49-73. *)
Definition setup : M unit :=
  pinMode PIR_PIN false ;;
  pinMode LED_PIN true ;;
  pinMode LDR_PIN false ;;
  digitalWrite LED_PIN LOW ;;
  when DEBUG (Serial_begin 9600 ;; Serial_println MsgSystemBanner) ;;
  fillReadings (Z.to_nat numReadings) 0 ;;
  calibrateLDR ;;
  debug MsgPirStabilizing ;;
  delay 3000 ;;
  debug MsgSystemReady.

(** *** The scheduler, [loop], lines 224-294, by its blocks *)

(** Line 228. *)
Definition inLockoutPeriod (s : State) (currentMillis : Z) : bool :=
  ledsEnabled s
  && (ulong_sub currentMillis (ledOnTime s) <? to_ulong LDR_LOCKOUT_PERIOD).

(** The condition of line 231. *)
Definition lightCheckDue (s : State) (currentMillis : Z) : bool :=
  negb (inLockoutPeriod s currentMillis)
  && (to_ulong (currentLdrInterval s)
        <=? ulong_sub currentMillis (lastLdrCheck s)).

(** Lines 238-261: the adaptive interval and the forced switch-off, run
    right after [checkLight]. *)
Definition adaptInterval : M unit :=
  dark <- rd isDark ;;
  if negb dark then
    (* Environment is light, increment counter *)
    assign set_consecutiveLightReadings
      (fun s => int_add (consecutiveLightReadings s) 1) ;;
    n <- rd consecutiveLightReadings ;;
    interval <- rd currentLdrInterval ;;
    when ((LIGHT_HISTORY_THRESHOLD <=? n) && (interval =? LDR_FAST_INTERVAL))
      (assign set_currentLdrInterval (fun _ => LDR_SLOW_INTERVAL) ;;
       debug MsgSlowMode) ;;
    (* Ensure LEDs are off when it's light *)
    enabled <- rd ledsEnabled ;;
    when enabled
      (assign set_ledsEnabled (fun _ => false) ;;
       digitalWrite LED_PIN LOW ;;
       debug MsgLedsOffBright)
  else
    (* Environment is dark, reset counter and ensure fast checking *)
    assign set_consecutiveLightReadings (fun _ => 0) ;;
    interval <- rd currentLdrInterval ;;
    when (interval =? LDR_SLOW_INTERVAL)
      (assign set_currentLdrInterval (fun _ => LDR_FAST_INTERVAL) ;;
       debug MsgFastMode).

(** Lines 231-262: the light check, when it is due. *)
Definition lightBlock (currentMillis : Z) : M unit :=
  due <- rd (fun s => lightCheckDue s currentMillis) ;;
  when due
    (assign set_lastLdrCheck (fun _ => currentMillis) ;;
     checkLight ;;
     adaptInterval).

(** Lines 269-286: the LED state follows [motionDetected]. *)
Definition updateLeds (currentMillis : Z) : M unit :=
  newLedState <- rd motionDetected ;;
  enabled <- rd ledsEnabled ;;
  when (negb (Bool.eqb enabled newLedState))
    (assign set_ledsEnabled (fun _ => newLedState) ;;
     enabled' <- rd ledsEnabled ;;
     digitalWrite LED_PIN (if enabled' then HIGH else LOW) ;;
     (* Record time when LEDs turn on *)
     when enabled' (assign set_ledOnTime (fun _ => currentMillis)) ;;
     debug (if enabled' then MsgLedsOn else MsgLedsOffNoMotion)).

(** Lines 264-287: motion detection and LED control, only if it is dark. *)
Definition motionBlock (currentMillis : Z) : M unit :=
  dark <- rd isDark ;;
  when dark (checkMotion ;; updateLeds currentMillis).

Definition loop : M unit :=
  currentMillis <- millis ;;
  lightBlock currentMillis ;;
  motionBlock currentMillis ;;
  (* Run watchdog regardless of light conditions *)
  runWatchdog ;;
  (* Short delay to reduce CPU usage *)
  delay 300.

(** ** Executions *)

(** [n] iterations of the scheduler. *)
Fixpoint ticks (n : nat) : M unit :=
  match n with
  | O => skip
  | S n' => loop ;; ticks n'
  end.

(** The sketch from power-on: [setup], then [n] iterations of [loop]. *)
Definition sketch (n : nat) : M unit := setup ;; ticks n.

(** [n] successive calls of [checkLight]. *)
Fixpoint feed (n : nat) : M unit :=
  match n with
  | O => skip
  | S n' => checkLight ;; feed n'
  end.

(** * Specification vocabulary *)

(** ** Light classifier *)

(** The value the next [analogRead] returns. *)
Definition nextReading (w : World) : Z := to_int (ldrLine w (ldrSamples w)).

(** The globals after lines 176-182 of [checkLight] when the conversion
    returned [v]. *)
Definition pushReading (s : State) (v : Z) : State :=
  let total1 := int_sub (ldrTotal s) (arr_get (ldrReadings s) (readIndex s)) in
  let buf := arr_set (ldrReadings s) (readIndex s) v in
  let total2 := int_add total1 (arr_get buf (readIndex s)) in
  set_ldrAverage (int_div total2 numReadings)
    (set_readIndex (int_rem (int_add (readIndex s) 1) numReadings)
       (set_ldrTotal total2 (set_ldrReadings buf s))).

(** The two-threshold decision of lines 193-200 on an average [avg]. *)
Definition classify (thr : Z) (dark : bool) (avg : Z) : bool :=
  if dark then negb (int_add thr hysteresis <=? avg)
  else avg <=? int_sub thr hysteresis.

(** [ldrThreshold - hysteresis] and [ldrThreshold + hysteresis] do not
    overflow an [int]. *)
Definition thresholdInRange (s : State) : Prop :=
  int_min + hysteresis <= ldrThreshold s <= int_max - hysteresis.

(** A conversion result of the 10-bit converter. *)
Definition adc (v : Z) : Prop := 0 <= v <= 1023.

(** Every conversion of the LDR line is in the converter's range. *)
Definition adcLine (w : World) : Prop := forall k, adc (ldrLine w k).

(** The ring buffer holds the three most recent readings [a] (newest), [b]
    and [c] (oldest), the cursor is on the oldest one, and [ldrTotal] is
    their sum. *)
Definition window (s : State) (a b c : Z) : Prop :=
  ldrTotal s = a + b + c
  /\ ((readIndex s = 0 /\ ldrReadings s = [c; b; a])
      \/ (readIndex s = 1 /\ ldrReadings s = [a; c; b])
      \/ (readIndex s = 2 /\ ldrReadings s = [b; a; c])).

(** [window] for the three most recent conversions of the board. *)
Definition windowAt (s : State) (w : World) : Prop :=
  exists m, ldrSamples w = S (S (S m))
    /\ window s (ldrLine w (S (S m))) (ldrLine w (S m)) (ldrLine w m).

(** Integer mean (truncating division, as in C) of the three most recent
    conversions of the board. *)
Definition lastThreeMean (w : World) : Z :=
  match ldrSamples w with
  | S (S (S m)) =>
      Z.quot (ldrLine w (S (S m)) + ldrLine w (S m) + ldrLine w m) 3
  | _ => 0
  end.

(** The last [k] elements of a list. *)
Definition lastn {A} (k : nat) (l : list A) : list A :=
  skipn (length l - k) l.

Definition sumZ (l : list Z) : Z := fold_right Z.add 0 l.

(** The average as the specification words it: the integer mean of the last
    [min (N, 3)] of the [N] readings fed through [checkLight]. *)
Definition specAverage (fed : list Z) : Z :=
  let k := Nat.min (length fed) (Z.to_nat numReadings) in
  Z.quot (sumZ (lastn k fed)) (Z.of_nat k).

(** The readings the first [n] calls of [checkLight] receive on a board
    that was powered on in world [w]: [setup] takes three conversions to
    fill the array before the first call. *)
Definition fedThroughCheckLight (w : World) (n : nat) : list Z :=
  map (fun i => to_int (ldrLine w (ldrSamples w + 3 + i))) (seq 0 n).

(** A board whose LDR line reads 900 three times, then 0. *)
Definition brightThenDark : World :=
  mkWorld 0 false (fun _ => false) 0
    (fun k => if (k <? 3)%nat then 900 else 0) 0.

(** ** Frames *)

(** The program [m] leaves the view [f] of the globals as it found it. *)
Definition keeps {A B} (f : State -> B) (m : M A) : Prop :=
  forall s w, f (vars (m s w)) = f s.

(** The program [m] leaves the view [g] of the board as it found it. *)
Definition keepsEnv {A B} (g : World -> B) (m : M A) : Prop :=
  forall s w, g (env (m s w)) = g w.

(** Every event of the program [m] satisfies [P]. *)
Definition emits {A} (P : Event -> Prop) (m : M A) : Prop :=
  forall s w, Forall P (events (m s w)).

(** ** Adaptive cadence *)

(** What an iteration of [loop] started in [s] on board [w] classifies, if
    its light check is due: whether it leaves [isDark] set, and the interval
    that was in force at the check. *)
Definition classification (s : State) (w : World) : option (bool * Z) :=
  if lightCheckDue s (clock w)
  then Some (isDark (vars (lightBlock (clock w) s w)), currentLdrInterval s)
  else None.

(** The classifications of the scheduler so far, newest first. *)
Definition recordTick (h : list (bool * Z)) (s : State) (w : World)
  : list (bool * Z) :=
  match classification s w with
  | Some c => c :: h
  | None => h
  end.

(** The states the globals can be in at the start of an iteration, with the
    classifications made by the scheduler so far.  The board seen by each
    iteration is arbitrary, so every state of an execution of the sketch is
    among them. *)
Inductive reachable : list (bool * Z) -> State -> Prop :=
| reach_setup (w : World) : reachable [] (vars (setup initState w))
| reach_loop (h : list (bool * Z)) (s : State) (w : World) :
    reachable h s -> reachable (recordTick h s w) (vars (loop s w)).

(** Nothing was classified yet, or the newest classification was dark. *)
Definition startsDark (h : list (bool * Z)) : Prop :=
  h = [] \/ exists i t, h = (true, i) :: t.

(** The newest classifications are [k] non-dark ones made at the slow
    interval, preceded by exactly five consecutive non-dark ones made at the
    fast interval. *)
Definition enteredSlow (h : list (bool * Z)) : Prop :=
  exists k rest,
    h = repeat (false, LDR_SLOW_INTERVAL) k
        ++ repeat (false, LDR_FAST_INTERVAL) 5 ++ rest
    /\ startsDark rest.

(** The newest classifications are [k < 5] consecutive non-dark ones, all
    made at the fast interval, and the counter holds [k]. *)
Definition fastRun (h : list (bool * Z)) (counter : Z) : Prop :=
  exists k rest,
    (k < 5)%nat
    /\ h = repeat (false, LDR_FAST_INTERVAL) k ++ rest
    /\ startsDark rest
    /\ counter = Z.of_nat k.

Definition cadenceInv (h : list (bool * Z)) (s : State) : Prop :=
  (currentLdrInterval s = LDR_FAST_INTERVAL
   /\ fastRun h (consecutiveLightReadings s))
  \/ (currentLdrInterval s = LDR_SLOW_INTERVAL /\ enteredSlow h).

(** The variables of the adaptive cadence. *)
Definition cadence (s : State) : Z * Z * bool :=
  (consecutiveLightReadings s, currentLdrInterval s, isDark s).

(** ** Motion detector *)

(** The debounced PIR signal [debounceMotion] returns on board [w]. *)
Definition debounced (w : World) : bool := value (debounceMotion initState w).

(** The board after the three reads and pauses of [debounceMotion]. *)
Definition afterDebounce (w : World) : World := env (debounceMotion initState w).

(** What the three reads and pauses of [debounceMotion] do to the outside. *)
Definition debounceEvents (w : World) : list Event :=
  events (debounceMotion initState w).

(** The timer start after the rollover guard of lines 124-126. *)
Definition guardedStart (start now : Z) : Z :=
  if now <? start then now else start.

(** The checkpoint window of lines 132-133 and 150-151. *)
Definition inCheckWindow (elapsed : Z) : bool :=
  (to_ulong CHECK_TIME <=? elapsed) && (elapsed <? to_ulong TIMEOUT).

(** Whether [checkMotion] samples the PIR line (line 131). *)
Definition debounceDue (detected : bool) (elapsed : Z) : bool :=
  negb detected || (detected && inCheckWindow elapsed).

(** The transition of lines 138-169 on [motionDetected] and
    [motionStartTime], after the rollover guard, for the motion signal
    [motionNow]. *)
Definition motionStep (detected : bool) (start now : Z) (motionNow : bool)
  : bool * Z :=
  let elapsed := ulong_sub now start in
  if negb detected && motionNow then (true, now)
  else if detected then
    if inCheckWindow elapsed && motionNow then (true, now)
    else if to_ulong TIMEOUT <=? elapsed then (false, start)
    else (true, start)
  else (false, start).

(** A board at clock [t] whose PIR line is at level [pir] and whose LDR
    line converts to [ldr], with the LED output low. *)
Definition steadyBoard (t : Z) (pir : bool) (ldr : Z) : World :=
  mkWorld t false (fun _ => pir) 0 (fun _ => ldr) 0.

(** The globals in the middle of a motion cycle that started at [start]. *)
Definition inCycle (start : Z) : State :=
  set_motionStartTime start (set_motionDetected true initState).

(** ** Observations on the event log *)

Definition isAnalogRead (e : Event) : bool :=
  match e with
  | EvAnalogRead _ _ => true
  | _ => false
  end.

(** A write to the LED pin, at any level. *)
Definition isLedWrite (e : Event) : bool :=
  match e with
  | EvDigitalWrite pin _ => pin =? LED_PIN
  | _ => false
  end.

(** A write that drives the LED pin high. *)
Definition isLedHigh (e : Event) : bool :=
  match e with
  | EvDigitalWrite pin level => (pin =? LED_PIN) && negb (level =? LOW)
  | _ => false
  end.

Definition count (p : Event -> bool) (l : list Event) : nat :=
  length (filter p l).

Definition ledWrites (l : list Event) : nat := count isLedWrite l.
Definition analogReads (l : list Event) : nat := count isAnalogRead l.

(** No event of the log satisfies [p]. *)
Definition none (p : Event -> bool) (l : list Event) : Prop :=
  Forall (fun e => p e = false) l.

(** The program [m] never produces an event that satisfies [p]. *)
Definition quiet (p : Event -> bool) {A} (m : M A) : Prop :=
  forall s w, none p (events (m s w)).

(** ** Watchdog *)

(** The condition of line 209. *)
Definition watchdogDue (s : State) (now : Z) : bool :=
  to_ulong 30000 <? ulong_sub now (lastWatchdogCheck s).

(** ** Lockout *)

(** The variables of the light classifier and of its cadence. *)
Definition lightVars (s : State)
  : list Z * Z * Z * Z * bool * Z * Z * Z :=
  (ldrReadings s, readIndex s, ldrTotal s, ldrAverage s, isDark s,
   lastLdrCheck s, consecutiveLightReadings s, currentLdrInterval s).

(** The globals after [setup] in the dark. *)
Definition bootDark : State := vars (setup initState (steadyBoard 0 true 0)).

(** Then an iteration at timestamp 10000 with motion, which switches the
    LEDs on. *)
Definition ledsOn : State := vars (loop bootDark (steadyBoard 10000 true 0)).

Definition ledsOnHistory : list (bool * Z) :=
  recordTick [] bootDark (steadyBoard 10000 true 0).

(** The sketch in the dark with steady motion, from power-on to the end of
    its third iteration: the first iteration, at timestamp 3000, switches the
    LEDs on; the fourth one will start at timestamp 4098. *)
Definition threeTicksLit : Result unit :=
  sketch 3 initState (steadyBoard 0 true 0).

(** [setup] and [n] iterations, one second apart, on a bright board, with
    the classifications made. *)
Fixpoint brightRun (n : nat) : list (bool * Z) * State :=
  match n with
  | O => ([], vars (setup initState (steadyBoard 0 false 900)))
  | S k =>
      let w := steadyBoard (1000 * Z.of_nat n) false 900 in
      (recordTick (fst (brightRun k)) (snd (brightRun k)) w,
       vars (loop (snd (brightRun k)) w))
  end.

(** A calibrated classifier that reports dark. *)
Definition calibratedDark : State :=
  set_isDark true (set_ldrThreshold 30 initState).

(** ** Bright forces the LEDs off *)

(** While the classifier reports bright the LEDs are not enabled. *)
Definition brightOff (s : State) : Prop :=
  isDark s = false -> ledsEnabled s = false.

(** The cadence condition of line 231, without the lockout. *)
Definition cadenceDue (s : State) (now : Z) : bool :=
  to_ulong (currentLdrInterval s) <=? ulong_sub now (lastLdrCheck s).

(** ** Further vocabulary *)

(** Number of high samples among the next three of the PIR line. *)
Definition pirHighs (w : World) : nat :=
  let n := pirSamples w in
  (Nat.b2n (pirLine w n) + Nat.b2n (pirLine w (S n))
   + Nat.b2n (pirLine w (S (S n))))%nat.

(** A read of the PIR pin. *)
Definition isPirRead (e : Event) : bool :=
  match e with
  | EvDigitalRead pin _ => pin =? PIR_PIN
  | _ => false
  end.

Definition isDelay (e : Event) : bool :=
  match e with
  | EvDelay _ => true
  | _ => false
  end.

Definition isPrint (e : Event) : bool :=
  match e with
  | EvPrint _ => true
  | _ => false
  end.

(** The ring buffer has [numReadings] slots and the cursor is on one of
    them. *)
Definition cursorInBounds (s : State) : Prop :=
  length (ldrReadings s) = 3%nat /\ 0 <= readIndex s < numReadings.

(** [ldrTotal] is the sum of the buffer, as an [int]. *)
Definition sumInv (s : State) : Prop :=
  ldrTotal s = to_int (sumZ (ldrReadings s)).

(** The LED pin is at the level the sketch intends. *)
Definition pinInSync (s : State) (w : World) : Prop :=
  ledLevel w = ledsEnabled s.

(** The LDR side of the board. *)
Definition ldrSide (w : World) : (nat -> Z) * nat := (ldrLine w, ldrSamples w).

(** The variables of the moving average. *)
Definition ringView (s : State) : list Z * Z * Z * Z :=
  (ldrReadings s, readIndex s, ldrTotal s, ldrAverage s).

(** The moving average is the integer mean of the three most recent
    conversions of a board whose conversions are in range. *)
Definition ringInv (s : State) (w : World) : Prop :=
  adcLine w /\ windowAt s w /\ ldrAverage s = lastThreeMean w.

(** The ring buffer is well formed: cursor in bounds and sum up to date. *)
Definition ringWF (s : State) : Prop := cursorInBounds s /\ sumInv s.

(** The LEDs are enabled only in the dark and during a motion cycle. *)
Definition ledsJustified (s : State) : Prop :=
  ledsEnabled s = true -> isDark s = true /\ motionDetected s = true.

(** Whether the motion block of an iteration that reaches it in globals
    [s] at timestamp [now] samples the PIR line. *)
Definition motionSampled (s : State) (now : Z) : bool :=
  isDark s
  && debounceDue (motionDetected s)
       (ulong_sub now (guardedStart (motionStartTime s) now)).

(** The PIR side of the board and its clock. *)
Definition pirSide (w : World) : (nat -> bool) * nat * Z :=
  (pirLine w, pirSamples w, clock w).

(** * Properties *)

(** ** Machine arithmetic *)

Lemma to_int_id (z : Z) : is_int z -> to_int z = z.
Proof.
  unfold is_int, to_int, int_min, int_max, int_modulus; intros Hz.
  rewrite Z.mod_small; lia.
Qed.

Lemma to_int_range (z : Z) : is_int (to_int z).
Proof.
  unfold is_int, to_int, int_min, int_max, int_modulus.
  pose proof (Z.mod_pos_bound (z + 32768) 65536 ltac:(lia)); lia.
Qed.

Lemma to_ulong_id (z : Z) : is_ulong z -> to_ulong z = z.
Proof. unfold is_ulong, to_ulong; intros Hz; apply Z.mod_small; exact Hz. Qed.

Lemma to_ulong_range (z : Z) : is_ulong (to_ulong z).
Proof.
  unfold is_ulong, to_ulong, ulong_modulus.
  apply Z.mod_pos_bound; lia.
Qed.

(** The unsigned difference of two timestamps is the mathematical one as
    long as the clock has not wrapped between them. *)
Lemma ulong_sub_exact (a b : Z) :
  is_ulong a -> is_ulong b -> b <= a -> ulong_sub a b = a - b.
Proof.
  unfold ulong_sub, is_ulong; intros Ha Hb Hab.
  apply to_ulong_id; unfold is_ulong; lia.
Qed.

Lemma ulong_sub_diag (a : Z) : ulong_sub a a = 0.
Proof. unfold ulong_sub, to_ulong; rewrite Z.sub_diag; reflexivity. Qed.

(** Unfolds the state-passing combinators; the arithmetic stays folded. *)
Ltac run :=
  cbv [bind ret rd assign skip when debug DEBUG Serial_println analogRead
       millis delay pinMode Serial_begin andb orb negb
       value vars env events].

(** ** Sequencing *)

Lemma bind_value {A B} (m : M A) (k : A -> M B) (s : State) (w : World) :
  value (bind m k s w) = value (k (value (m s w)) (vars (m s w)) (env (m s w))).
Proof. unfold bind; destruct (m s w), (k _ _ _); reflexivity. Qed.

Lemma bind_vars {A B} (m : M A) (k : A -> M B) (s : State) (w : World) :
  vars (bind m k s w) = vars (k (value (m s w)) (vars (m s w)) (env (m s w))).
Proof. unfold bind; destruct (m s w), (k _ _ _); reflexivity. Qed.

Lemma bind_env {A B} (m : M A) (k : A -> M B) (s : State) (w : World) :
  env (bind m k s w) = env (k (value (m s w)) (vars (m s w)) (env (m s w))).
Proof. unfold bind; destruct (m s w), (k _ _ _); reflexivity. Qed.

Lemma bind_events {A B} (m : M A) (k : A -> M B) (s : State) (w : World) :
  events (bind m k s w) =
  events (m s w)
  ++ events (k (value (m s w)) (vars (m s w)) (env (m s w))).
Proof. unfold bind; destruct (m s w), (k _ _ _); reflexivity. Qed.

(** ** The light classifier *)

Lemma checkLight_vars (s : State) (w : World) :
  vars (checkLight s w) =
  let s1 := pushReading s (nextReading w) in
  set_isDark (classify (ldrThreshold s) (isDark s) (ldrAverage s1)) s1.
Proof.
  unfold checkLight, classify, pushReading, nextReading; run.
  destruct s as [c i md mst lst lwc buf idx tot avg thr dark llc en lon].
  cbn [isDark ldrAverage ldrThreshold ldrTotal ldrReadings readIndex
       set_ldrAverage set_readIndex set_ldrTotal set_ldrReadings].
  destruct dark; cbn [negb andb].
  - destruct (_ <=? _); reflexivity.
  - destruct (_ <=? _); reflexivity.
Qed.

Lemma checkLight_env (s : State) (w : World) :
  env (checkLight s w) =
  mkWorld (clock w) (ledLevel w) (pirLine w) (pirSamples w) (ldrLine w)
    (S (ldrSamples w)).
Proof.
  unfold checkLight; run.
  destruct (isDark s); cbn [negb andb];
    repeat match goal with |- context [if ?c then _ else _] => destruct c end;
    reflexivity.
Qed.

Lemma checkLight_threshold (s : State) (w : World) :
  ldrThreshold (vars (checkLight s w)) = ldrThreshold s.
Proof. rewrite checkLight_vars; reflexivity. Qed.

Lemma checkLight_average (s : State) (w : World) :
  ldrAverage (vars (checkLight s w)) =
  ldrAverage (pushReading s (nextReading w)).
Proof. rewrite checkLight_vars; reflexivity. Qed.

Lemma checkLight_isDark (s : State) (w : World) :
  isDark (vars (checkLight s w)) =
  classify (ldrThreshold s) (isDark s) (ldrAverage (vars (checkLight s w))).
Proof. rewrite checkLight_average, checkLight_vars; reflexivity. Qed.

(** C1: hysteresis of the light classifier.  For every state and every
    reading, with [avg] the average [checkLight] has just computed:
    a dark classifier stays dark while [avg] is strictly inside the dead
    band, and turns light only when [avg >= threshold + hysteresis]; a light
    classifier stays light inside the dead band and turns dark only when
    [avg <= threshold - hysteresis]; an average equal to the bare threshold
    never changes [isDark]. *)
Theorem checkLight_hysteresis (s : State) (w : World) :
  thresholdInRange s ->
  let s' := vars (checkLight s w) in
  let avg := ldrAverage s' in
  let thr := ldrThreshold s in
  (isDark s = true ->
   thr - hysteresis < avg < thr + hysteresis -> isDark s' = true)
  /\ (isDark s = true -> isDark s' = false -> thr + hysteresis <= avg)
  /\ (isDark s = false ->
      thr - hysteresis < avg < thr + hysteresis -> isDark s' = false)
  /\ (isDark s = false -> isDark s' = true -> avg <= thr - hysteresis)
  /\ (avg = thr -> isDark s' = isDark s).
Proof.
  intros Hthr s' avg thr.
  assert (Hd : isDark s' = classify thr (isDark s) avg)
    by apply checkLight_isDark.
  unfold thresholdInRange, int_min, int_max in Hthr; fold thr in Hthr.
  unfold classify, int_add, int_sub in Hd.
  unfold hysteresis in *.
  rewrite !to_int_id in Hd by (unfold is_int, int_min, int_max; lia).
  repeat split; intros; rewrite Hd in *;
    destruct (isDark s); try discriminate;
    repeat match goal with
      | H : negb _ = _ |- _ => apply negb_false_iff in H
      | H : (_ <=? _) = true |- _ => apply Z.leb_le in H
      | |- negb _ = _ => apply negb_true_iff
      | |- (_ <=? _) = false => apply Z.leb_gt
      | |- (_ <=? _) = true => apply Z.leb_le
      end; lia.
Qed.

(** ** The ring buffer and the moving average *)

Lemma adc_is_int (v : Z) : adc v -> is_int v.
Proof. unfold adc, is_int, int_min, int_max; lia. Qed.

Lemma adc_to_int (v : Z) : adc v -> to_int v = v.
Proof. intros Hv; apply to_int_id, adc_is_int, Hv. Qed.

Lemma nextReading_adc (w : World) :
  adcLine w -> nextReading w = ldrLine w (ldrSamples w).
Proof. intros Hw; apply adc_to_int, Hw. Qed.

(** One insertion: the new reading replaces the oldest one, the sum and
    the average follow. *)
Lemma pushReading_window (s : State) (a b c v : Z) :
  adc a -> adc b -> adc c -> adc v ->
  window s a b c ->
  window (pushReading s v) v a b
  /\ ldrAverage (pushReading s v) = Z.quot (v + a + b) 3.
Proof.
  intros Ha Hb Hc Hv [Htot Hbuf].
  assert (Hq : is_int (Z.quot (v + a + b) 3)).
  { unfold adc, is_int, int_min, int_max in *.
    pose proof (Z.quot_pos (v + a + b) 3 ltac:(lia) ltac:(lia)).
    pose proof (Z.quot_le_upper_bound (v + a + b) 3 3069 ltac:(lia) ltac:(lia)).
    lia. }
  unfold adc in *.
  destruct s as [n i md mst lst lwc buf idx tot avg thr dark llc en lon].
  unfold window, pushReading in *;
    cbn [ldrTotal readIndex ldrReadings ldrAverage set_ldrAverage
         set_readIndex set_ldrTotal set_ldrReadings] in *.
  destruct Hbuf as [[Hi Hl] | [[Hi Hl] | [Hi Hl]]]; subst idx buf tot;
    unfold arr_get, arr_set;
    change (Z.to_nat 0) with 0%nat; change (Z.to_nat 1) with 1%nat;
    change (Z.to_nat 2) with 2%nat; cbn [arr_put nth];
    unfold int_div, int_add, int_sub, numReadings;
    rewrite (to_int_id (a + b + c - c)) by (unfold is_int, int_min, int_max; lia);
    rewrite (to_int_id (a + b + c - c + v)) by (unfold is_int, int_min, int_max; lia);
    replace (a + b + c - c + v) with (v + a + b) by lia;
    rewrite (to_int_id _ Hq);
    (split; [split; [lia | ] | reflexivity]).
  - right; left; split; reflexivity.
  - right; right; split; reflexivity.
  - left; split; reflexivity.
Qed.

Lemma window_set_isDark (s : State) (a b c : Z) (v : bool) :
  window s a b c -> window (set_isDark v s) a b c.
Proof. intros H; exact H. Qed.

Lemma window_set_ldrThreshold (s : State) (a b c : Z) (v : Z) :
  window s a b c -> window (set_ldrThreshold v s) a b c.
Proof. intros H; exact H. Qed.

(** [checkLight] keeps the window on the three most recent conversions and
    leaves their integer mean in [ldrAverage]. *)
Lemma checkLight_window (s : State) (w : World) :
  adcLine w -> windowAt s w ->
  let r := checkLight s w in
  windowAt (vars r) (env r)
  /\ ldrAverage (vars r) = lastThreeMean (env r)
  /\ adcLine (env r).
Proof.
  intros Hw [m [Hm Hwin]]; cbv zeta.
  rewrite checkLight_average, checkLight_env, checkLight_vars; cbv zeta.
  rewrite nextReading_adc by exact Hw.
  rewrite Hm.
  destruct (pushReading_window s _ _ _ (ldrLine w (S (S (S m))))
              (Hw _) (Hw _) (Hw _) (Hw _) Hwin) as [Hwin' Havg].
  generalize dependent (pushReading s (ldrLine w (S (S (S m))))).
  intros s1 Hwin' Havg.
  split; [| split].
  - exists (S m); split; [reflexivity |].
    apply window_set_isDark; exact Hwin'.
  - rewrite Havg; reflexivity.
  - exact Hw.
Qed.

(** [n] further insertions. *)
Lemma feed_window (n : nat) :
  forall s w,
    adcLine w -> windowAt s w -> ldrAverage s = lastThreeMean w ->
    let r := feed n s w in
    windowAt (vars r) (env r)
    /\ ldrAverage (vars r) = lastThreeMean (env r)
    /\ ldrSamples (env r) = (ldrSamples w + n)%nat
    /\ ldrLine (env r) = ldrLine w.
Proof.
  induction n as [| n IH]; intros s w Hw Hwin Havg.
  - cbn; repeat split; auto.
  - cbn [feed]; rewrite bind_vars, bind_env.
    destruct (checkLight_window s w Hw Hwin) as [Hwin1 [Havg1 Hw1]].
    destruct (IH _ _ Hw1 Hwin1 Havg1) as [H1 [H2 [H3 H4]]].
    repeat split; try assumption.
    + rewrite H3, checkLight_env; cbn [ldrSamples]; lia.
    + rewrite H4, checkLight_env; reflexivity.
Qed.

(** The loop of [setup] fills the array with three conversions. *)
Lemma fillReadings_window (w : World) :
  adcLine w ->
  let r := fillReadings 3 0 initState w in
  windowAt (vars r) (env r)
  /\ ldrSamples (env r) = (ldrSamples w + 3)%nat
  /\ ldrLine (env r) = ldrLine w.
Proof.
  intros Hw r; subst r.
  cbv [fillReadings]; run.
  cbn [ldrReadings ldrTotal set_ldrReadings set_ldrTotal initState
       ldrSamples ldrLine clock ledLevel pirLine pirSamples].
  change (int_add 0 1) with 1; change (int_add 1 1) with 2.
  unfold arr_get, arr_set.
  change (Z.to_nat 0) with 0%nat; change (Z.to_nat 1) with 1%nat;
    change (Z.to_nat 2) with 2%nat; cbn [arr_put nth].
  pose proof (Hw (ldrSamples w)) as H0.
  pose proof (Hw (S (ldrSamples w))) as H1.
  pose proof (Hw (S (S (ldrSamples w)))) as H2.
  rewrite (adc_to_int _ H0), (adc_to_int _ H1), (adc_to_int _ H2).
  unfold adc in H0, H1, H2; unfold int_add.
  rewrite (to_int_id (0 + _)) by (unfold is_int, int_min, int_max; lia).
  rewrite (to_int_id (0 + _ + _)) by (unfold is_int, int_min, int_max; lia).
  rewrite (to_int_id (0 + _ + _ + _)) by (unfold is_int, int_min, int_max; lia).
  split; [| split; [lia | reflexivity]].
  exists (ldrSamples w); split; [reflexivity |].
  split; [cbn; lia | left; split; reflexivity].
Qed.

(** [setup] up to the call of [calibrateLDR], and what follows it. *)
Lemma setup_steps (w : World) :
  let w1 :=
    mkWorld (clock w) false (pirLine w) (pirSamples w) (ldrLine w)
      (ldrSamples w) in
  let r1 := fillReadings 3 0 initState w1 in
  let r2 := checkLight (set_ldrThreshold 30 (vars r1)) (env r1) in
  vars (setup initState w) = vars r2
  /\ ldrSamples (env (setup initState w)) = ldrSamples (env r2)
  /\ ldrLine (env (setup initState w)) = ldrLine (env r2).
Proof.
  unfold setup, calibrateLDR; run.
  cbv [digitalWrite LED_PIN LOW Z.eqb Pos.eqb].
  change (Z.to_nat numReadings) with 3%nat.
  destruct (fillReadings 3 0 initState _) as [u1 s1 w1 e1]; cbn [vars env].
  destruct (checkLight _ _) as [u2 s2 w2 e2]; cbn [vars env ldrSamples ldrLine].
  repeat split.
Qed.

(** After [setup] the window is on the last three of the four conversions
    taken so far and [ldrAverage] is their integer mean. *)
Lemma windowAt_threshold (s : State) (w : World) (v : Z) :
  windowAt s w -> windowAt (set_ldrThreshold v s) w.
Proof.
  intros [m [Hm H]]; exists m; split; [exact Hm |].
  apply window_set_ldrThreshold; exact H.
Qed.

Lemma setup_window (w : World) :
  adcLine w ->
  let r := setup initState w in
  windowAt (vars r) (env r)
  /\ ldrAverage (vars r) = lastThreeMean (env r)
  /\ ldrSamples (env r) = (ldrSamples w + 4)%nat
  /\ ldrLine (env r) = ldrLine w.
Proof.
  intros Hw; cbv zeta.
  destruct (setup_steps w) as [Hv [Hn Hl]].
  assert (Hw1 : adcLine (mkWorld (clock w) false (pirLine w) (pirSamples w)
                           (ldrLine w) (ldrSamples w))) by exact Hw.
  destruct (fillReadings_window _ Hw1) as [Hwin [Hn1 Hl1]].
  revert Hv Hn Hl Hwin Hn1 Hl1.
  generalize (fillReadings 3 0 initState
                (mkWorld (clock w) false (pirLine w) (pirSamples w)
                   (ldrLine w) (ldrSamples w))).
  intros r1 Hv Hn Hl Hwin Hn1 Hl1.
  change (ldrSamples (env r1) = (ldrSamples w + 3)%nat) in Hn1.
  change (ldrLine (env r1) = ldrLine w) in Hl1.
  assert (Hwe : adcLine (env r1)) by (intro k; rewrite Hl1; apply Hw).
  destruct (checkLight_window _ _ Hwe (windowAt_threshold _ _ 30 Hwin))
    as [Hwin2 [Havg2 _]].
  pose proof (checkLight_env (set_ldrThreshold 30 (vars r1)) (env r1)) as He.
  revert Hv Hn Hl Hwin2 Havg2 He.
  generalize (checkLight (set_ldrThreshold 30 (vars r1)) (env r1)).
  intros r2 Hv Hn Hl Hwin2 Havg2 He.
  generalize dependent (setup initState w); intros r Hv Hn Hl.
  assert (Hwin3 : windowAt (vars r) (env r)).
  { destruct Hwin2 as [m [Hm H]]; exists m; rewrite Hv, Hn, Hl.
    split; assumption. }
  assert (Havg3 : ldrAverage (vars r) = lastThreeMean (env r)).
  { rewrite Hv, Havg2; unfold lastThreeMean; rewrite Hn, Hl; reflexivity. }
  split; [exact Hwin3 | split; [exact Havg3 |]].
  rewrite Hn, Hl, He; cbn [ldrSamples ldrLine]; rewrite Hn1, Hl1.
  split; [lia | reflexivity].
Qed.

(** C2 (as amended): ring-buffer moving average.  On a board whose
    conversions are in the converter's range, after [setup] (which fills the
    array with three conversions and makes the first call of [checkLight])
    and [n] further calls of [checkLight], [ldrAverage] is the integer mean
    (truncating division by 3) of the three most recent conversions, the
    ones taken by [setup] included; the board has then taken [n + 4]
    conversions. *)
Theorem moving_average_last_three (w : World) (n : nat) :
  adcLine w ->
  let r := (setup ;; feed n) initState w in
  ldrAverage (vars r) = lastThreeMean (env r)
  /\ ldrSamples (env r) = (ldrSamples w + 4 + n)%nat
  /\ ldrLine (env r) = ldrLine w.
Proof.
  intros Hw r; subst r; rewrite bind_vars, bind_env.
  destruct (setup_window w Hw) as [Hwin [Havg [Hn Hl]]].
  assert (Hw' : adcLine (env (setup initState w)))
    by (intro k; rewrite Hl; apply Hw).
  destruct (feed_window n _ _ Hw' Hwin Havg) as [_ [Havg' [Hn' Hl']]].
  split; [exact Havg' | split].
  - rewrite Hn', Hn; reflexivity.
  - rewrite Hl', Hl; reflexivity.
Qed.

Lemma moving_average_last_three_witness :
  adcLine brightThenDark
  /\ ldrAverage (vars ((setup ;; feed 2) initState brightThenDark)) = 0.
Proof.
  assert (H : adcLine brightThenDark).
  { intro k; unfold adc, brightThenDark; cbn [ldrLine].
    destruct (k <? 3)%nat; lia. }
  split; [exact H |].
  pose proof (moving_average_last_three brightThenDark 2 H) as Hm.
  cbv zeta in Hm; destruct Hm as [Havg _].
  rewrite Havg; vm_compute; reflexivity.
Defined.

(** C2 as the specification words it fails on the first call: [setup] has
    read 900 three times, the first call of [checkLight] reads 0 and leaves
    the mean of 900, 900 and 0 in [ldrAverage], not the mean of the one
    reading fed through [checkLight]. *)
Lemma moving_average_not_of_fed_readings :
  fedThroughCheckLight brightThenDark 1 = [0]
  /\ specAverage (fedThroughCheckLight brightThenDark 1) = 0
  /\ ldrAverage (vars (setup initState brightThenDark)) = 600
  /\ ldrAverage (vars (setup initState brightThenDark))
     <> specAverage (fedThroughCheckLight brightThenDark 1).
Proof.
  assert (Havg : ldrAverage (vars (setup initState brightThenDark)) = 600)
    by (vm_compute; reflexivity).
  assert (Hspec : specAverage (fedThroughCheckLight brightThenDark 1) = 0)
    by (vm_compute; reflexivity).
  split; [vm_compute; reflexivity |].
  split; [exact Hspec |].
  split; [exact Havg |].
  rewrite Havg, Hspec; discriminate.
Qed.

(** ** Frame rules *)

Section FrameRules.

Context {B : Type} (f : State -> B).

Lemma keeps_ret {A} (a : A) : keeps f (ret a).
Proof. intros s w; reflexivity. Qed.

Lemma keeps_bind {A C} (m : M A) (k : A -> M C) :
  keeps f m -> (forall a, keeps f (k a)) -> keeps f (bind m k).
Proof.
  intros Hm Hk s w; rewrite bind_vars, Hk; apply Hm.
Qed.

Lemma keeps_rd {A} (e : State -> A) : keeps f (rd e).
Proof. intros s w; reflexivity. Qed.

Lemma keeps_assign {A} (set : A -> State -> State) (e : State -> A) :
  (forall v s, f (set v s) = f s) -> keeps f (assign set e).
Proof. intros Hset s w; apply Hset. Qed.

Lemma keeps_when (c : bool) (m : M unit) : keeps f m -> keeps f (when c m).
Proof. intros Hm; destruct c; [exact Hm | apply keeps_ret]. Qed.

Lemma keeps_millis : keeps f millis.
Proof. intros s w; reflexivity. Qed.

Lemma keeps_delay (ms : Z) : keeps f (delay ms).
Proof. intros s w; reflexivity. Qed.

Lemma keeps_pinMode (pin : Z) (o : bool) : keeps f (pinMode pin o).
Proof. intros s w; reflexivity. Qed.

Lemma keeps_Serial_begin (baud : Z) : keeps f (Serial_begin baud).
Proof. intros s w; reflexivity. Qed.

Lemma keeps_Serial_println (m : Msg) : keeps f (Serial_println m).
Proof. intros s w; reflexivity. Qed.

Lemma keeps_debug (m : Msg) : keeps f (debug m).
Proof. apply keeps_when, keeps_Serial_println. Qed.

Lemma keeps_digitalRead (pin : Z) : keeps f (digitalRead pin).
Proof.
  intros s w; unfold digitalRead.
  destruct (pin =? LED_PIN); [| destruct (pin =? PIR_PIN)]; reflexivity.
Qed.

Lemma keeps_digitalWrite (pin level : Z) : keeps f (digitalWrite pin level).
Proof.
  intros s w; unfold digitalWrite; destruct (pin =? LED_PIN); reflexivity.
Qed.

Lemma keeps_analogRead (pin : Z) : keeps f (analogRead pin).
Proof. intros s w; reflexivity. Qed.

End FrameRules.

(** Walks through a program, one statement at a time; assignments to
    variables outside the view are discharged by computation. *)
Ltac frame_step :=
  lazymatch goal with
  | |- keeps _ (bind _ _) => apply keeps_bind; [| intros ?]
  | |- keeps _ (ret _) => apply keeps_ret
  | |- keeps _ skip => apply keeps_ret
  | |- keeps _ (rd _) => apply keeps_rd
  | |- keeps _ millis => apply keeps_millis
  | |- keeps _ (delay _) => apply keeps_delay
  | |- keeps _ (pinMode _ _) => apply keeps_pinMode
  | |- keeps _ (Serial_begin _) => apply keeps_Serial_begin
  | |- keeps _ (Serial_println _) => apply keeps_Serial_println
  | |- keeps _ (debug _) => apply keeps_debug
  | |- keeps _ (digitalRead _) => apply keeps_digitalRead
  | |- keeps _ (digitalWrite _ _) => apply keeps_digitalWrite
  | |- keeps _ (analogRead _) => apply keeps_analogRead
  | |- keeps _ (when _ _) => apply keeps_when
  | |- keeps _ (assign _ _) => apply keeps_assign; intros; reflexivity
  | |- keeps _ (if ?c then _ else _) => destruct c
  end.

Ltac frame := cbv zeta; repeat frame_step.

Section Frames.

Context {B : Type} (f : State -> B).

Lemma keeps_debounceReads (n : nat) :
  forall c, keeps f (debounceReads n c).
Proof.
  induction n as [| n IH]; intros c; cbn [debounceReads]; frame.
  apply IH.
Qed.

Lemma keeps_debounceMotion : keeps f debounceMotion.
Proof. unfold debounceMotion; frame; apply keeps_debounceReads. Qed.

(** [runWatchdog] writes no global but its own stamp. *)
Lemma keeps_runWatchdog :
  (forall v s, f (set_lastWatchdogCheck v s) = f s) -> keeps f runWatchdog.
Proof.
  intros Hset; unfold runWatchdog; frame.
  apply keeps_assign, Hset.
Qed.

(** [checkMotion] writes [motionDetected], [motionStartTime] and
    [lastSerialTime] only. *)
Lemma keeps_checkMotion :
  (forall v s, f (set_motionDetected v s) = f s) ->
  (forall v s, f (set_motionStartTime v s) = f s) ->
  (forall v s, f (set_lastSerialTime v s) = f s) ->
  keeps f checkMotion.
Proof.
  intros Hmd Hmst Hlst.
  assert (Hprint : forall t m, keeps f (throttledPrint t m)).
  { intros t m; unfold throttledPrint; frame. apply keeps_assign, Hlst. }
  unfold checkMotion; frame;
    first [ apply keeps_assign; assumption
          | apply Hprint
          | apply keeps_debounceMotion ].
Qed.

(** [updateLeds] writes [ledsEnabled] and [ledOnTime] only. *)
Lemma keeps_updateLeds (t : Z) :
  (forall v s, f (set_ledsEnabled v s) = f s) ->
  (forall v s, f (set_ledOnTime v s) = f s) ->
  keeps f (updateLeds t).
Proof.
  intros Hen Hon; unfold updateLeds; frame;
    apply keeps_assign; assumption.
Qed.

Lemma keeps_motionBlock (t : Z) :
  (forall v s, f (set_motionDetected v s) = f s) ->
  (forall v s, f (set_motionStartTime v s) = f s) ->
  (forall v s, f (set_lastSerialTime v s) = f s) ->
  (forall v s, f (set_ledsEnabled v s) = f s) ->
  (forall v s, f (set_ledOnTime v s) = f s) ->
  keeps f (motionBlock t).
Proof.
  intros; unfold motionBlock; frame.
  - apply keeps_checkMotion; assumption.
  - apply keeps_updateLeds; assumption.
Qed.

(** [checkLight] writes the ring buffer, its cursor, the sum, the average
    and [isDark] only. *)
Lemma keeps_checkLight :
  (forall v s, f (set_ldrTotal v s) = f s) ->
  (forall v s, f (set_ldrReadings v s) = f s) ->
  (forall v s, f (set_readIndex v s) = f s) ->
  (forall v s, f (set_ldrAverage v s) = f s) ->
  (forall v s, f (set_isDark v s) = f s) ->
  keeps f checkLight.
Proof.
  intros; unfold checkLight; frame; apply keeps_assign; assumption.
Qed.

(** The adaptive-interval block writes the counter, the interval and
    [ledsEnabled] only. *)
Lemma keeps_adaptInterval :
  (forall v s, f (set_consecutiveLightReadings v s) = f s) ->
  (forall v s, f (set_currentLdrInterval v s) = f s) ->
  (forall v s, f (set_ledsEnabled v s) = f s) ->
  keeps f adaptInterval.
Proof.
  intros; unfold adaptInterval; frame; apply keeps_assign; assumption.
Qed.

End Frames.

Section SetupFrame.

Context {B : Type} (f : State -> B).

Lemma keeps_fillReadings (n : nat) :
  (forall v s, f (set_ldrTotal v s) = f s) ->
  (forall v s, f (set_ldrReadings v s) = f s) ->
  forall i, keeps f (fillReadings n i).
Proof.
  intros Ht Hr; induction n as [| n IH]; intros i; cbn [fillReadings]; frame.
  - apply keeps_assign, Hr.
  - apply keeps_assign, Ht.
  - apply IH.
Qed.

(** [setup] writes the variables of the light classifier only. *)
Lemma keeps_setup :
  (forall v s, f (set_ldrTotal v s) = f s) ->
  (forall v s, f (set_ldrReadings v s) = f s) ->
  (forall v s, f (set_readIndex v s) = f s) ->
  (forall v s, f (set_ldrAverage v s) = f s) ->
  (forall v s, f (set_isDark v s) = f s) ->
  (forall v s, f (set_ldrThreshold v s) = f s) ->
  keeps f setup.
Proof.
  intros; unfold setup, calibrateLDR; frame.
  - apply keeps_fillReadings; assumption.
  - apply keeps_assign; assumption.
  - apply keeps_checkLight; assumption.
Qed.

End SetupFrame.

(** ** The adaptive cadence *)

Lemma adaptInterval_dark (s : State) (w : World) :
  isDark s = true ->
  let s' := vars (adaptInterval s w) in
  isDark s' = true
  /\ consecutiveLightReadings s' = 0
  /\ currentLdrInterval s' =
     (if currentLdrInterval s =? LDR_SLOW_INTERVAL then LDR_FAST_INTERVAL
      else currentLdrInterval s).
Proof.
  intros Hd; unfold adaptInterval; run; rewrite Hd.
  cbn [currentLdrInterval set_consecutiveLightReadings].
  destruct (currentLdrInterval s =? LDR_SLOW_INTERVAL);
    cbn; repeat split; assumption.
Qed.

Lemma adaptInterval_light (s : State) (w : World) :
  isDark s = false ->
  let s' := vars (adaptInterval s w) in
  let n := int_add (consecutiveLightReadings s) 1 in
  isDark s' = false
  /\ consecutiveLightReadings s' = n
  /\ currentLdrInterval s' =
     (if (LIGHT_HISTORY_THRESHOLD <=? n)
         && (currentLdrInterval s =? LDR_FAST_INTERVAL)
      then LDR_SLOW_INTERVAL else currentLdrInterval s)
  /\ ledsEnabled s' = false.
Proof.
  intros Hd; unfold adaptInterval; run; rewrite Hd.
  cbn [currentLdrInterval consecutiveLightReadings
       set_consecutiveLightReadings].
  destruct (LIGHT_HISTORY_THRESHOLD <=? _);
    destruct (currentLdrInterval s =? LDR_FAST_INTERVAL);
    cbn [andb ledsEnabled set_currentLdrInterval
         set_consecutiveLightReadings vars];
    destruct (ledsEnabled s) eqn:Hen;
    cbn; rewrite ?Hen; repeat split; assumption.
Qed.

(** What follows the light check in [loop] leaves the cadence alone. *)
Lemma loop_cadence (s : State) (w : World) :
  cadence (vars (loop s w)) = cadence (vars (lightBlock (clock w) s w)).
Proof.
  unfold loop; rewrite !bind_vars; unfold millis at 1 2 3; cbn [value vars env].
  rewrite (keeps_delay cadence).
  rewrite (keeps_runWatchdog cadence) by reflexivity.
  rewrite (keeps_motionBlock cadence) by reflexivity.
  reflexivity.
Qed.

Lemma lightBlock_idle (s : State) (w : World) (t : Z) :
  lightCheckDue s t = false -> lightBlock t s w = mkResult tt s w [].
Proof. intros Hdue; unfold lightBlock; run; rewrite Hdue; reflexivity. Qed.

Lemma lightBlock_due (s : State) (w : World) (t : Z) :
  lightCheckDue s t = true ->
  let r1 := checkLight (set_lastLdrCheck t s) w in
  vars (lightBlock t s w) = vars (adaptInterval (vars r1) (env r1)).
Proof.
  intros Hdue; cbv zeta; unfold lightBlock; run; rewrite Hdue.
  destruct (checkLight _ _) as [u1 s1 w1 e1]; cbn [vars env].
  destruct (adaptInterval s1 w1); reflexivity.
Qed.

(** The cadence after an iteration whose light check is due. *)
Lemma loop_classifies (s : State) (w : World) :
  lightCheckDue s (clock w) = true ->
  let s' := vars (loop s w) in
  let n := int_add (consecutiveLightReadings s) 1 in
  isDark s' = isDark (vars (lightBlock (clock w) s w))
  /\ (isDark s' = true ->
      consecutiveLightReadings s' = 0
      /\ currentLdrInterval s' =
         (if currentLdrInterval s =? LDR_SLOW_INTERVAL then LDR_FAST_INTERVAL
          else currentLdrInterval s))
  /\ (isDark s' = false ->
      consecutiveLightReadings s' = n
      /\ currentLdrInterval s' =
         (if (LIGHT_HISTORY_THRESHOLD <=? n)
             && (currentLdrInterval s =? LDR_FAST_INTERVAL)
          then LDR_SLOW_INTERVAL else currentLdrInterval s)).
Proof.
  intros Hdue s' n; subst s' n.
  pose proof (loop_cadence s w) as Hc; unfold cadence in Hc.
  injection Hc as Hn Hi Hd; rewrite Hn, Hi, Hd.
  rewrite (lightBlock_due s w _ Hdue); cbv zeta.
  set (r1 := checkLight (set_lastLdrCheck (clock w) s) w).
  assert (H1 : consecutiveLightReadings (vars r1) = consecutiveLightReadings s)
    by (unfold r1; rewrite (keeps_checkLight consecutiveLightReadings)
          by reflexivity; reflexivity).
  assert (H2 : currentLdrInterval (vars r1) = currentLdrInterval s)
    by (unfold r1; rewrite (keeps_checkLight currentLdrInterval)
          by reflexivity; reflexivity).
  split; [reflexivity |].
  destruct (isDark (vars r1)) eqn:Hd1.
  - destruct (adaptInterval_dark (vars r1) (env r1) Hd1) as [Ha [Hb Hc']].
    rewrite Ha, Hb, Hc', H2; split; [intros _; split; reflexivity |].
    discriminate.
  - destruct (adaptInterval_light (vars r1) (env r1) Hd1) as [Ha [Hb [Hc' _]]].
    rewrite Ha, Hb, Hc', H1, H2; split; [discriminate |].
    intros _; split; reflexivity.
Qed.

(** The cadence after an iteration whose light check is not due. *)
Lemma loop_no_check (s : State) (w : World) :
  lightCheckDue s (clock w) = false -> cadence (vars (loop s w)) = cadence s.
Proof.
  intros Hdue; rewrite loop_cadence, (lightBlock_idle s w _ Hdue); reflexivity.
Qed.

Lemma setup_cadence (w : World) :
  cadenceInv [] (vars (setup initState w)).
Proof.
  left.
  rewrite (keeps_setup currentLdrInterval) by reflexivity.
  rewrite (keeps_setup consecutiveLightReadings) by reflexivity.
  split; [reflexivity |].
  exists 0%nat, []; repeat split; [lia | left; reflexivity].
Qed.

Lemma fastRun_counter (h : list (bool * Z)) (n : Z) :
  fastRun h n -> 0 <= n < 5.
Proof. intros [k [rest [Hk [_ [_ Hn]]]]]; lia. Qed.

(** One iteration keeps the cadence invariant. *)
Lemma cadenceInv_step (h : list (bool * Z)) (s : State) (w : World) :
  cadenceInv h s -> cadenceInv (recordTick h s w) (vars (loop s w)).
Proof.
  intros Hinv; unfold recordTick, classification.
  destruct (lightCheckDue s (clock w)) eqn:Hdue.
  - destruct (loop_classifies s w Hdue) as [Hsame [Hdark Hlight]].
    rewrite <- Hsame.
    destruct (isDark (vars (loop s w))) eqn:Hd.
    + (* a dark classification *)
      destruct (Hdark eq_refl) as [Hn Hi]; left; split.
      * rewrite Hi.
        destruct Hinv as [[Hfast _] | [Hslow _]];
          [rewrite Hfast | rewrite Hslow]; reflexivity.
      * rewrite Hn; exists 0%nat, ((true, currentLdrInterval s) :: h).
        repeat split; [lia |].
        right; exists (currentLdrInterval s), h; reflexivity.
    + (* a non-dark classification *)
      destruct (Hlight eq_refl) as [Hn Hi].
      destruct Hinv as [[Hfast Hrun] | [Hslow Hent]].
      * destruct Hrun as [k [rest [Hk [Hh [Hrest Hcnt]]]]].
        assert (Hk1 : int_add (consecutiveLightReadings s) 1
                      = Z.of_nat (S k)).
        { rewrite Hcnt; unfold int_add.
          rewrite to_int_id by (unfold is_int, int_min, int_max; lia); lia. }
        cbv zeta in Hn, Hi; rewrite Hk1 in Hn, Hi; rewrite Hfast in Hi.
        change (LDR_FAST_INTERVAL =? LDR_FAST_INTERVAL) with true in Hi.
        rewrite andb_true_r in Hi; unfold LIGHT_HISTORY_THRESHOLD in Hi.
        destruct (5 <=? Z.of_nat (S k)) eqn:Hfive.
        -- right; split; [exact Hi |].
           apply Z.leb_le in Hfive.
           assert (k = 4%nat) by lia; subst k.
           exists 0%nat, rest; split; [| exact Hrest].
           rewrite Hfast, Hh; reflexivity.
        -- left; split; [exact Hi |].
           apply Z.leb_gt in Hfive.
           exists (S k), rest; split; [lia | split; [| split]].
           ++ rewrite Hfast, Hh; reflexivity.
           ++ exact Hrest.
           ++ exact Hn.
      * right.
        rewrite Hslow in Hi.
        change (LDR_SLOW_INTERVAL =? LDR_FAST_INTERVAL) with false in Hi.
        rewrite andb_false_r in Hi; split; [exact Hi |].
        destruct Hent as [k [rest [Hh Hrest]]].
        exists (S k), rest; split; [| exact Hrest].
        rewrite Hslow, Hh; reflexivity.
  - pose proof (loop_no_check s w Hdue) as Hc; unfold cadence in Hc.
    injection Hc as Hn Hi _.
    unfold cadenceInv; rewrite Hn, Hi; exact Hinv.
Qed.

Lemma reachable_cadenceInv (h : list (bool * Z)) (s : State) :
  reachable h s -> cadenceInv h s.
Proof.
  induction 1 as [w | h s w _ IH].
  - apply setup_cadence.
  - apply cadenceInv_step, IH.
Qed.

(** C3: adaptive cadence.  In every reachable state the interval is the
    fast or the slow one; it is the slow one only if the newest
    classifications are non-dark ones that begin with five consecutive ones
    made while the interval was the fast one; and an iteration whose
    classification leaves [isDark] set leaves the counter at 0 and the
    interval at the fast one. *)
Theorem adaptive_cadence (h : list (bool * Z)) (s : State) :
  reachable h s ->
  (currentLdrInterval s = LDR_FAST_INTERVAL
   \/ currentLdrInterval s = LDR_SLOW_INTERVAL)
  /\ (currentLdrInterval s = LDR_SLOW_INTERVAL -> enteredSlow h)
  /\ (forall w,
        lightCheckDue s (clock w) = true ->
        isDark (vars (loop s w)) = true ->
        consecutiveLightReadings (vars (loop s w)) = 0
        /\ currentLdrInterval (vars (loop s w)) = LDR_FAST_INTERVAL).
Proof.
  intros Hreach; pose proof (reachable_cadenceInv h s Hreach) as Hinv.
  split; [| split].
  - destruct Hinv as [[H _] | [H _]]; [left | right]; exact H.
  - intros Hslow; destruct Hinv as [[Hfast _] | [_ Hent]]; [| exact Hent].
    rewrite Hslow in Hfast; discriminate.
  - intros w Hdue Hdark.
    destruct (loop_classifies s w Hdue) as [_ [H _]].
    destruct (H Hdark) as [Hn Hi]; split; [exact Hn |].
    rewrite Hi.
    destruct Hinv as [[Hfast _] | [Hslow _]];
      [rewrite Hfast | rewrite Hslow]; reflexivity.
Qed.

(** ** The motion detector *)

(** The debounce reads pass the globals through and do not depend on them. *)
Lemma debounceReads_state (n : nat) :
  forall c s w,
    debounceReads n c s w =
    mkResult (value (debounceReads n c initState w)) s
      (env (debounceReads n c initState w))
      (events (debounceReads n c initState w)).
Proof.
  induction n as [| n IH]; intros c s w.
  - reflexivity.
  - cbn [debounceReads]; cbv [bind digitalRead delay].
    change (PIR_PIN =? LED_PIN) with false; change (PIR_PIN =? PIR_PIN) with true.
    cbv iota.
    rewrite (IH _ s); rewrite (IH _ initState); reflexivity.
Qed.

Lemma debounceMotion_state (s : State) (w : World) :
  debounceMotion s w =
  mkResult (debounced w) s (afterDebounce w) (debounceEvents w).
Proof.
  unfold debounced, afterDebounce, debounceEvents, debounceMotion;
    cbv [bind ret].
  rewrite (debounceReads_state _ _ s); rewrite (debounceReads_state _ _ initState).
  reflexivity.
Qed.

Lemma throttledPrint_vars (t : Z) (m : Msg) (s : State) (w : World) :
  vars (throttledPrint t m s w) = s
  \/ vars (throttledPrint t m s w) = set_lastSerialTime t s.
Proof.
  unfold throttledPrint; run.
  destruct (to_ulong 1000 <? _); [right | left]; reflexivity.
Qed.

Lemma throttledPrint_motion (t : Z) (m : Msg) (s : State) (w : World) :
  motionDetected (vars (throttledPrint t m s w)) = motionDetected s
  /\ motionStartTime (vars (throttledPrint t m s w)) = motionStartTime s.
Proof.
  destruct (throttledPrint_vars t m s w) as [H | H]; rewrite H; split; reflexivity.
Qed.

(** [checkMotion] on the two variables of the cycle. *)
Lemma checkMotion_step (s : State) (w : World) :
  let now := clock w in
  let start := guardedStart (motionStartTime s) now in
  let elapsed := ulong_sub now start in
  let motionNow :=
    if debounceDue (motionDetected s) elapsed then debounced w else false in
  (motionDetected (vars (checkMotion s w)),
   motionStartTime (vars (checkMotion s w)))
  = motionStep (motionDetected s) start now motionNow.
Proof.
  cbv zeta; unfold checkMotion, motionStep, debounceDue, inCheckWindow,
    guardedStart; run.
  destruct (clock w <? motionStartTime s);
    cbn [motionDetected motionStartTime set_motionStartTime];
    destruct (motionDetected s) eqn:Hd; cbn [negb andb orb].
  all: repeat match goal with
         | |- context [if (?a <=? ?b) then _ else _] => destruct (a <=? b)
         | |- context [if (?a <? ?b) then _ else _] => destruct (a <? b)
         end;
    try rewrite debounceMotion_state; cbv iota beta;
    try destruct (debounced w); cbv iota beta;
    try match goal with
      | |- context [throttledPrint ?t ?m ?s0 ?w0] =>
          destruct (throttledPrint_motion t m s0 w0) as [Hp1 Hp2];
          destruct (throttledPrint t m s0 w0) as [u1 s1 w1 e1];
          cbn [vars] in Hp1, Hp2; cbv iota beta; rewrite Hp1, Hp2
      end;
    cbn [motionDetected motionStartTime set_motionDetected
         set_motionStartTime]; rewrite ?Hd; reflexivity.
Qed.

Lemma checkMotion_detected (s : State) (w : World) :
  motionDetected (vars (checkMotion s w)) =
  fst (motionStep (motionDetected s)
         (guardedStart (motionStartTime s) (clock w)) (clock w)
         (if debounceDue (motionDetected s)
               (ulong_sub (clock w)
                  (guardedStart (motionStartTime s) (clock w)))
          then debounced w else false)).
Proof. rewrite <- checkMotion_step; reflexivity. Qed.

Lemma checkMotion_start (s : State) (w : World) :
  motionStartTime (vars (checkMotion s w)) =
  snd (motionStep (motionDetected s)
         (guardedStart (motionStartTime s) (clock w)) (clock w)
         (if debounceDue (motionDetected s)
               (ulong_sub (clock w)
                  (guardedStart (motionStartTime s) (clock w)))
          then debounced w else false)).
Proof. rewrite <- checkMotion_step; reflexivity. Qed.

(** A positive debounced reading while idle starts a cycle at the current
    timestamp. *)
Lemma checkMotion_starts_cycle (s : State) (w : World) :
  motionDetected s = false -> debounced w = true ->
  motionDetected (vars (checkMotion s w)) = true
  /\ motionStartTime (vars (checkMotion s w)) = clock w.
Proof.
  intros Hidle Hpir.
  rewrite checkMotion_detected, checkMotion_start, Hidle.
  unfold debounceDue, motionStep; cbn [negb orb andb]; rewrite Hpir.
  split; reflexivity.
Qed.

(** In a cycle, without rollover: active strictly before [TIMEOUT], idle
    from [TIMEOUT] on. *)
Lemma checkMotion_active (s : State) (w : World) :
  motionDetected s = true ->
  is_ulong (motionStartTime s) -> is_ulong (clock w) ->
  motionStartTime s <= clock w ->
  (clock w - motionStartTime s < TIMEOUT ->
   motionDetected (vars (checkMotion s w)) = true)
  /\ (TIMEOUT <= clock w - motionStartTime s ->
      motionDetected (vars (checkMotion s w)) = false).
Proof.
  intros Hact Hs Hw Hle.
  rewrite checkMotion_detected, Hact.
  unfold guardedStart.
  replace (clock w <? motionStartTime s) with false
    by (symmetry; apply Z.ltb_ge; exact Hle).
  rewrite (ulong_sub_exact _ _ Hw Hs Hle).
  unfold motionStep, debounceDue, inCheckWindow; cbn [negb andb orb].
  rewrite (ulong_sub_exact _ _ Hw Hs Hle).
  change (to_ulong TIMEOUT) with TIMEOUT.
  change (to_ulong CHECK_TIME) with CHECK_TIME.
  split; intros He.
  - replace (clock w - motionStartTime s <? TIMEOUT) with true
      by (symmetry; apply Z.ltb_lt; exact He).
    replace (TIMEOUT <=? clock w - motionStartTime s) with false
      by (symmetry; apply Z.leb_gt; exact He).
    destruct (CHECK_TIME <=? _); cbn [andb fst];
      [destruct (debounced w) |]; reflexivity.
  - replace (clock w - motionStartTime s <? TIMEOUT) with false
      by (symmetry; apply Z.ltb_ge; exact He).
    replace (TIMEOUT <=? clock w - motionStartTime s) with true
      by (symmetry; apply Z.leb_le; exact He).
    rewrite andb_false_r; reflexivity.
Qed.

(** C4: motion-cycle timeout boundary.  A positive debounced reading while
    idle starts a cycle stamped with the current timestamp [t0]; as long as
    no extension has moved the stamp, a call of [checkMotion] at timestamp
    [t >= t0] leaves [motionDetected] set when [t - t0 < 5000] and clears it
    when [t - t0 >= 5000]. *)
Theorem motion_timeout_boundary (s0 : State) (w0 : World) (s : State)
    (w : World) :
  motionDetected s0 = false -> debounced w0 = true ->
  motionDetected s = true ->
  motionStartTime s = motionStartTime (vars (checkMotion s0 w0)) ->
  is_ulong (clock w0) -> is_ulong (clock w) -> clock w0 <= clock w ->
  motionDetected (vars (checkMotion s0 w0)) = true
  /\ motionStartTime (vars (checkMotion s0 w0)) = clock w0
  /\ (clock w - clock w0 < TIMEOUT ->
      motionDetected (vars (checkMotion s w)) = true)
  /\ (TIMEOUT <= clock w - clock w0 ->
      motionDetected (vars (checkMotion s w)) = false).
Proof.
  intros Hidle Hpir Hact Hstamp Hw0 Hw Hle.
  destruct (checkMotion_starts_cycle s0 w0 Hidle Hpir) as [Hon Hstart].
  rewrite Hstart in Hstamp.
  split; [exact Hon | split; [exact Hstart |]].
  rewrite <- Hstamp.
  apply checkMotion_active; try assumption; rewrite Hstamp; assumption.
Qed.

Lemma motion_timeout_boundary_witness :
  motionDetected initState = false
  /\ debounced (steadyBoard 0 true 0) = true
  /\ motionDetected (inCycle 0) = true
  /\ motionStartTime (inCycle 0)
     = motionStartTime (vars (checkMotion initState (steadyBoard 0 true 0)))
  /\ is_ulong 0 /\ is_ulong 5000 /\ 0 <= 5000
  /\ motionDetected
       (vars (checkMotion (inCycle 0) (steadyBoard 5000 true 0))) = false.
Proof.
  assert (H1 : motionDetected initState = false) by reflexivity.
  assert (H2 : debounced (steadyBoard 0 true 0) = true)
    by (vm_compute; reflexivity).
  assert (H3 : motionDetected (inCycle 0) = true) by reflexivity.
  assert (H4 : motionStartTime (inCycle 0)
               = motionStartTime
                   (vars (checkMotion initState (steadyBoard 0 true 0))))
    by (vm_compute; reflexivity).
  assert (H5 : is_ulong 0) by (unfold is_ulong, ulong_modulus; lia).
  assert (H6 : is_ulong 5000) by (unfold is_ulong, ulong_modulus; lia).
  assert (H7 : 0 <= 5000) by lia.
  repeat (split; [assumption |]).
  apply (motion_timeout_boundary initState (steadyBoard 0 true 0) (inCycle 0)
           (steadyBoard 5000 true 0) H1 H2 H3 H4 H5 H6 H7).
  unfold TIMEOUT; cbn [clock steadyBoard]; lia.
Defined.

(** The same cycle one millisecond earlier is still active. *)
Example motion_active_at_4999 :
  motionDetected
    (vars (checkMotion (inCycle 0) (steadyBoard 4999 false 0))) = true.
Proof. vm_compute; reflexivity. Qed.

(** C5: clock-rollover guard.  When the current timestamp is below the
    stored [motionStartTime], [checkMotion] leaves [motionStartTime] at the
    current timestamp, and a cycle that was active stays active. *)
Theorem rollover_guard (s : State) (w : World) :
  clock w < motionStartTime s ->
  motionStartTime (vars (checkMotion s w)) = clock w
  /\ (motionDetected s = true ->
      motionDetected (vars (checkMotion s w)) = true).
Proof.
  intros Hlt.
  rewrite checkMotion_detected, checkMotion_start.
  unfold guardedStart.
  replace (clock w <? motionStartTime s) with true
    by (symmetry; apply Z.ltb_lt; exact Hlt).
  rewrite ulong_sub_diag.
  unfold motionStep, debounceDue; rewrite ulong_sub_diag.
  change (inCheckWindow 0) with false.
  change (to_ulong TIMEOUT <=? 0) with false.
  destruct (motionDetected s); cbn [negb andb orb].
  - split; [reflexivity | intros _; reflexivity].
  - destruct (debounced w); split; try reflexivity; discriminate.
Qed.

Lemma rollover_guard_witness :
  100 < motionStartTime (inCycle 4294960000)
  /\ motionStartTime
       (vars (checkMotion (inCycle 4294960000) (steadyBoard 100 false 0)))
     = 100
  /\ motionDetected
       (vars (checkMotion (inCycle 4294960000) (steadyBoard 100 false 0)))
     = true.
Proof.
  assert (H : clock (steadyBoard 100 false 0)
              < motionStartTime (inCycle 4294960000))
    by (cbn; lia).
  split; [exact H |].
  destruct (rollover_guard (inCycle 4294960000) (steadyBoard 100 false 0) H)
    as [Hstart Hstay].
  split; [exact Hstart | apply Hstay; reflexivity].
Defined.

(** ** Events *)

Lemma none_app (p : Event -> bool) (l1 l2 : list Event) :
  none p l1 -> none p l2 -> none p (l1 ++ l2).
Proof. intros H1 H2; apply Forall_app; split; assumption. Qed.

Lemma none_count (p : Event -> bool) (l : list Event) :
  none p l -> count p l = 0%nat.
Proof.
  unfold none, count; induction 1 as [| e l He _ IH]; cbn; [reflexivity |].
  rewrite He; exact IH.
Qed.

Lemma count_app (p : Event -> bool) (l1 l2 : list Event) :
  count p (l1 ++ l2) = (count p l1 + count p l2)%nat.
Proof. unfold count; rewrite filter_app, length_app; reflexivity. Qed.

Section EventRules.

Context (p : Event -> bool).

Lemma quiet_bind {A C} (m : M A) (k : A -> M C) :
  quiet p m -> (forall a, quiet p (k a)) -> quiet p (bind m k).
Proof.
  intros Hm Hk s w; rewrite bind_events; apply none_app; [apply Hm | apply Hk].
Qed.

Lemma quiet_nil {A} (m : M A) :
  (forall s w, events (m s w) = []) -> quiet p m.
Proof. intros H s w; rewrite H; constructor. Qed.

Lemma quiet_one {A} (m : M A) (e : Event) :
  (forall s w, events (m s w) = [e]) -> p e = false -> quiet p m.
Proof. intros H He s w; rewrite H; repeat constructor; exact He. Qed.

Lemma quiet_when (c : bool) (m : M unit) : quiet p m -> quiet p (when c m).
Proof. intros H; destruct c; [exact H | apply quiet_nil; reflexivity]. Qed.

Lemma quiet_digitalRead (pin : Z) :
  (forall v, p (EvDigitalRead pin v) = false) -> quiet p (digitalRead pin).
Proof.
  intros H s w; unfold digitalRead.
  destruct (pin =? LED_PIN); [| destruct (pin =? PIR_PIN)];
    repeat constructor; apply H.
Qed.

Lemma quiet_digitalWrite (pin level : Z) :
  p (EvDigitalWrite pin level) = false -> quiet p (digitalWrite pin level).
Proof.
  intros H s w; unfold digitalWrite.
  destruct (pin =? LED_PIN); repeat constructor; exact H.
Qed.

End EventRules.

(** Walks through a program and checks each event it can produce. *)
Ltac quiet_step :=
  lazymatch goal with
  | |- quiet _ (bind _ _) => apply quiet_bind; [| intros ?]
  | |- quiet _ (ret _) => apply quiet_nil; reflexivity
  | |- quiet _ skip => apply quiet_nil; reflexivity
  | |- quiet _ (rd _) => apply quiet_nil; reflexivity
  | |- quiet _ (assign _ _) => apply quiet_nil; reflexivity
  | |- quiet _ millis => apply quiet_nil; reflexivity
  | |- quiet _ (delay ?ms) =>
      apply (quiet_one _ _ (EvDelay ms)); [intros; reflexivity |]
  | |- quiet _ (Serial_println ?m) =>
      apply (quiet_one _ _ (EvPrint m)); [intros; reflexivity |]
  | |- quiet _ (analogRead _) => fail
  | |- quiet _ (debug _) => unfold debug
  | |- quiet _ (when _ _) => apply quiet_when
  | |- quiet _ (digitalRead _) => apply quiet_digitalRead; intros; reflexivity
  | |- quiet _ (digitalWrite _ _) => apply quiet_digitalWrite
  | |- quiet _ (if ?c then _ else _) => destruct c
  end.

Ltac quiet_all := cbv zeta; repeat quiet_step.

Lemma quiet_debounceMotion (p : Event -> bool) :
  (forall pin v, p (EvDigitalRead pin v) = false) ->
  (forall ms, p (EvDelay ms) = false) ->
  quiet p debounceMotion.
Proof.
  intros Hr Hd.
  assert (H : forall n c, quiet p (debounceReads n c)).
  { induction n as [| n IH]; intros c; cbn [debounceReads].
    - apply quiet_nil; reflexivity.
    - apply quiet_bind; [apply quiet_digitalRead, Hr | intros level].
      apply quiet_bind; [| intros _; apply IH].
      eapply quiet_one; [intros; reflexivity | apply Hd]. }
  unfold debounceMotion; apply quiet_bind; [apply H | intros c].
  apply quiet_nil; reflexivity.
Qed.

(** [checkMotion] reads the PIR pin, pauses and prints; it takes no
    conversion and never writes a pin. *)
Lemma quiet_checkMotion (p : Event -> bool) :
  (forall pin v, p (EvDigitalRead pin v) = false) ->
  (forall ms, p (EvDelay ms) = false) ->
  (forall m, p (EvPrint m) = false) ->
  quiet p checkMotion.
Proof.
  intros Hr Hd Hp.
  assert (Hprint : forall t m, quiet p (throttledPrint t m)).
  { intros t m; unfold throttledPrint.
    apply quiet_bind; [apply quiet_nil; reflexivity | intros l].
    apply quiet_when, quiet_bind; [| intros _; apply quiet_nil; reflexivity].
    eapply quiet_one; [intros; reflexivity | apply Hp]. }
  unfold checkMotion.
  repeat first
    [ apply Hprint
    | apply quiet_debounceMotion; assumption
    | quiet_step ].
Qed.

Lemma quiet_analogRead (p : Event -> bool) (pin : Z) :
  (forall v, p (EvAnalogRead pin v) = false) -> quiet p (analogRead pin).
Proof. intros H s w; repeat constructor; apply H. Qed.

(** ** The scheduler, block by block *)

Lemma loop_blocks (s : State) (w : World) :
  let r1 := lightBlock (clock w) s w in
  let r2 := motionBlock (clock w) (vars r1) (env r1) in
  let r3 := runWatchdog (vars r2) (env r2) in
  vars (loop s w) = vars r3
  /\ env (loop s w) = env (delay 300 (vars r3) (env r3))
  /\ events (loop s w)
     = events r1 ++ events r2 ++ events r3 ++ [EvDelay 300].
Proof.
  cbv zeta; unfold loop; cbv [bind millis delay].
  destruct (lightBlock (clock w) s w) as [u1 s1 w1 e1]; cbn [vars env events].
  destruct (motionBlock (clock w) s1 w1) as [u2 s2 w2 e2]; cbn [vars env events].
  destruct (runWatchdog s2 w2) as [u3 s3 w3 e3]; cbn [vars env events].
  repeat split.
Qed.

Lemma motionBlock_skipped (t : Z) (s : State) (w : World) :
  isDark s = false -> motionBlock t s w = mkResult tt s w [].
Proof. intros Hd; unfold motionBlock; run; rewrite Hd; reflexivity. Qed.

Lemma motionBlock_runs (t : Z) (s : State) (w : World) :
  isDark s = true ->
  let r1 := checkMotion s w in
  let r2 := updateLeds t (vars r1) (env r1) in
  vars (motionBlock t s w) = vars r2
  /\ env (motionBlock t s w) = env r2
  /\ events (motionBlock t s w) = events r1 ++ events r2.
Proof.
  intros Hd; cbv zeta; unfold motionBlock; run; rewrite Hd.
  destruct (checkMotion s w) as [u1 s1 w1 e1]; cbn [vars env events].
  destruct (updateLeds t s1 w1) as [u2 s2 w2 e2]; repeat split.
Qed.

(** ** The watchdog *)

Lemma runWatchdog_idle (s : State) (w : World) :
  watchdogDue s (clock w) = false -> runWatchdog s w = mkResult tt s w [].
Proof.
  unfold watchdogDue; intros Hdue; unfold runWatchdog; run; rewrite Hdue.
  reflexivity.
Qed.

Lemma runWatchdog_fires (s : State) (w : World) :
  watchdogDue s (clock w) = true ->
  runWatchdog s w =
  if Bool.eqb (ledsEnabled s) (ledLevel w) then
    mkResult tt (set_lastWatchdogCheck (clock w) s) w
      [EvDigitalRead LED_PIN (of_bool (ledLevel w))]
  else
    mkResult tt (set_lastWatchdogCheck (clock w) s)
      (mkWorld (clock w) (ledsEnabled s) (pirLine w) (pirSamples w)
         (ldrLine w) (ldrSamples w))
      [EvDigitalRead LED_PIN (of_bool (ledLevel w));
       EvDigitalWrite LED_PIN (if ledsEnabled s then HIGH else LOW);
       EvPrint MsgWatchdogReset].
Proof.
  unfold watchdogDue; intros Hdue; unfold runWatchdog; run; rewrite Hdue.
  cbv [digitalRead digitalWrite]; change (LED_PIN =? LED_PIN) with true.
  cbv iota; cbn [ledsEnabled set_lastWatchdogCheck].
  destruct (ledsEnabled s), (ledLevel w); reflexivity.
Qed.

(** C8: the watchdog is purely corrective.  [runWatchdog] changes no global
    but [lastWatchdogCheck], which it leaves alone or sets to the current
    timestamp; it writes the LED pin at most once; when it writes, the check
    was due, the pin level differed from [ledsEnabled] and equals it
    afterwards; when it does not write, the board is left as it was; it does
    nothing at all unless more than 30000 ms have passed since the stamp, so
    after a call that has stamped [lastWatchdogCheck] no call within the
    next 30000 ms writes. *)
Theorem watchdog_corrective (s : State) (w : World) :
  let r := runWatchdog s w in
  vars r = set_lastWatchdogCheck (lastWatchdogCheck (vars r)) s
  /\ (ledWrites (events r) <= 1)%nat
  /\ (ledWrites (events r) = 1%nat ->
      ledLevel w <> ledsEnabled s
      /\ ledLevel (env r) = ledsEnabled (vars r)
      /\ lastWatchdogCheck (vars r) = clock w)
  /\ (ledWrites (events r) = 0%nat -> env r = w)
  /\ (ulong_sub (clock w) (lastWatchdogCheck s) <= 30000 ->
      r = mkResult tt s w [])
  /\ (forall s2 w2,
        lastWatchdogCheck s2 = lastWatchdogCheck (vars r) ->
        watchdogDue s (clock w) = true ->
        ulong_sub (clock w2) (clock w) <= 30000 ->
        runWatchdog s2 w2 = mkResult tt s2 w2 []).
Proof.
  cbv zeta.
  assert (Hidle : forall s1 w1,
             ulong_sub (clock w1) (lastWatchdogCheck s1) <= 30000 ->
             runWatchdog s1 w1 = mkResult tt s1 w1 []).
  { intros s1 w1 Hle; apply runWatchdog_idle; unfold watchdogDue.
    change (to_ulong 30000) with 30000; apply Z.ltb_ge; exact Hle. }
  destruct (watchdogDue s (clock w)) eqn:Hdue.
  - rewrite (runWatchdog_fires s w Hdue).
    destruct s as [n i md mst lst lwc buf idx tot avg thr dark llc en lon].
    cbn [ledsEnabled].
    destruct en, (ledLevel w) eqn:Hlvl; cbn [Bool.eqb vars env events];
      (split; [reflexivity |]);
      (split; [cbn; lia |]);
      (split; [cbn; intros Hone; try discriminate Hone;
               repeat split; discriminate |]);
      (split; [cbn; intros Hzero; try discriminate Hzero;
               destruct w; cbn in Hlvl; subst; reflexivity |]);
      (split; [intros Hle; unfold watchdogDue in Hdue;
               change (to_ulong 30000) with 30000 in Hdue;
               apply Z.ltb_lt in Hdue; cbn [lastWatchdogCheck] in Hdue, Hle; lia |]);
      intros s2 w2 Hstamp _ Hle; apply Hidle; rewrite Hstamp; exact Hle.
  - rewrite (runWatchdog_idle s w Hdue); cbn [vars env events].
    split; [destruct s; reflexivity |].
    split; [cbn; lia |].
    split; [cbn; discriminate |].
    split; [reflexivity |].
    split; [reflexivity |].
    intros; discriminate.
Qed.

(** ** The actuator coordinator *)

Lemma updateLeds_same (t : Z) (s : State) (w : World) :
  ledsEnabled s = motionDetected s -> updateLeds t s w = mkResult tt s w [].
Proof.
  intros Heq; unfold updateLeds; run; rewrite Heq.
  destruct (motionDetected s); reflexivity.
Qed.

Lemma updateLeds_change (t : Z) (s : State) (w : World) :
  ledsEnabled s <> motionDetected s ->
  updateLeds t s w =
  mkResult tt
    (if motionDetected s
     then set_ledOnTime t (set_ledsEnabled true s)
     else set_ledsEnabled false s)
    (mkWorld (clock w) (motionDetected s) (pirLine w) (pirSamples w)
       (ldrLine w) (ldrSamples w))
    [EvDigitalWrite LED_PIN (if motionDetected s then HIGH else LOW);
     EvPrint (if motionDetected s then MsgLedsOn else MsgLedsOffNoMotion)].
Proof.
  intros Hne; unfold updateLeds; run.
  cbv [digitalWrite]; change (LED_PIN =? LED_PIN) with true; cbv iota.
  destruct (ledsEnabled s) eqn:He, (motionDetected s) eqn:Hm;
    try (exfalso; apply Hne; reflexivity); reflexivity.
Qed.



(** ** The light block *)

Lemma lightBlock_runs (s : State) (w : World) (t : Z) :
  lightCheckDue s t = true ->
  let r1 := checkLight (set_lastLdrCheck t s) w in
  let r2 := adaptInterval (vars r1) (env r1) in
  vars (lightBlock t s w) = vars r2
  /\ env (lightBlock t s w) = env r2
  /\ events (lightBlock t s w) = events r1 ++ events r2.
Proof.
  intros Hdue; cbv zeta; unfold lightBlock; run; rewrite Hdue.
  destruct (checkLight _ _) as [u1 s1 w1 e1]; cbn [vars env events].
  destruct (adaptInterval s1 w1); repeat split.
Qed.

(** The forced switch-off of lines 249-253. *)
Lemma adaptInterval_switch_off (s : State) (w : World) :
  isDark s = false -> ledsEnabled s = true ->
  In (EvDigitalWrite LED_PIN LOW) (events (adaptInterval s w))
  /\ ledLevel (env (adaptInterval s w)) = false.
Proof.
  destruct s as [n i md mst lst lwc buf idx tot avg thr dark llc en lon].
  cbn [isDark ledsEnabled]; intros Hd Hen; subst dark en.
  unfold adaptInterval; run.
  cbn [isDark currentLdrInterval consecutiveLightReadings ledsEnabled
       set_consecutiveLightReadings set_currentLdrInterval].
  cbv [digitalWrite]; change (LED_PIN =? LED_PIN) with true; cbv iota.
  destruct (LIGHT_HISTORY_THRESHOLD <=? _); destruct (i =? LDR_FAST_INTERVAL);
    cbn; auto.
Qed.

Lemma quiet_checkLight (p : Event -> bool) :
  (forall pin v, p (EvAnalogRead pin v) = false) ->
  (forall m, p (EvPrint m) = false) ->
  quiet p checkLight.
Proof.
  intros Ha Hp; unfold checkLight; quiet_all;
    first [apply quiet_analogRead; intros; apply Ha | apply Hp].
Qed.

(** The adaptive block never drives the LED pin high. *)
Lemma quiet_adaptInterval : quiet isLedHigh adaptInterval.
Proof. unfold adaptInterval; quiet_all; reflexivity. Qed.

Lemma quiet_lightBlock (t : Z) : quiet isLedHigh (lightBlock t).
Proof.
  unfold lightBlock; quiet_all.
  - apply quiet_checkLight; reflexivity.
  - apply quiet_adaptInterval.
Qed.

(** ** Bright forces the LEDs off *)

Lemma lightBlock_isDark (s : State) (w : World) (t : Z) :
  lightCheckDue s t = true ->
  isDark (vars (lightBlock t s w))
  = isDark (vars (checkLight (set_lastLdrCheck t s) w)).
Proof.
  intros Hdue; destruct (lightBlock_runs s w t Hdue) as [Hv _]; rewrite Hv.
  apply (keeps_adaptInterval isDark); reflexivity.
Qed.

Lemma lightBlock_brightOff (s : State) (w : World) (t : Z) :
  brightOff s -> brightOff (vars (lightBlock t s w)).
Proof.
  intros Hinv; destruct (lightCheckDue s t) eqn:Hdue.
  - intros Hbright.
    rewrite (lightBlock_isDark s w t Hdue) in Hbright.
    destruct (lightBlock_runs s w t Hdue) as [Hv _]; rewrite Hv.
    apply adaptInterval_light; exact Hbright.
  - rewrite (lightBlock_idle s w t Hdue); exact Hinv.
Qed.

Lemma loop_brightOff (s : State) (w : World) :
  brightOff s -> brightOff (vars (loop s w)).
Proof.
  intros Hinv; destruct (loop_blocks s w) as [Hv _]; rewrite Hv; clear Hv.
  pose proof (lightBlock_brightOff s w (clock w) Hinv) as H1.
  revert H1; generalize (lightBlock (clock w) s w); intros r1 H1.
  unfold brightOff.
  rewrite (keeps_runWatchdog isDark), (keeps_runWatchdog ledsEnabled)
    by reflexivity.
  destruct (isDark (vars r1)) eqn:Hd.
  - rewrite (keeps_motionBlock isDark) by reflexivity.
    rewrite Hd; discriminate.
  - rewrite (motionBlock_skipped _ _ _ Hd); exact H1.
Qed.

Lemma reachable_brightOff (h : list (bool * Z)) (s : State) :
  reachable h s -> brightOff s.
Proof.
  induction 1 as [w | h s w _ IH].
  - intros _; apply (keeps_setup ledsEnabled); reflexivity.
  - apply loop_brightOff, IH.
Qed.

(** With the LEDs disabled the watchdog never drives the pin high. *)
Lemma runWatchdog_off (s : State) (w : World) :
  ledsEnabled s = false -> none isLedHigh (events (runWatchdog s w)).
Proof.
  intros Hoff; destruct (watchdogDue s (clock w)) eqn:Hdue.
  - rewrite (runWatchdog_fires s w Hdue), Hoff.
    destruct (ledLevel w); cbn [Bool.eqb events]; repeat constructor.
  - rewrite (runWatchdog_idle s w Hdue); constructor.
Qed.

(** C6: bright forces the LEDs off before the motion block.  In an
    iteration from a reachable state whose light block leaves [isDark]
    clear: [ledsEnabled] is clear after the light block; if it was set, the
    light block has written LOW to the LED pin and the pin is low; the
    motion block that follows does nothing; [ledsEnabled] is still clear at
    the end of the iteration, the events of the iteration are those of the
    light block, of the watchdog and the final pause, and none of them
    drives the LED pin high. *)
Theorem bright_forces_leds_off (h : list (bool * Z)) (s : State)
    (w : World) :
  reachable h s ->
  isDark (vars (lightBlock (clock w) s w)) = false ->
  let r1 := lightBlock (clock w) s w in
  ledsEnabled (vars r1) = false
  /\ (ledsEnabled s = true ->
      In (EvDigitalWrite LED_PIN LOW) (events r1)
      /\ ledLevel (env r1) = false)
  /\ motionBlock (clock w) (vars r1) (env r1)
     = mkResult tt (vars r1) (env r1) []
  /\ ledsEnabled (vars (loop s w)) = false
  /\ events (loop s w)
     = events r1 ++ events (runWatchdog (vars r1) (env r1)) ++ [EvDelay 300]
  /\ none isLedHigh (events (loop s w)).
Proof.
  intros Hreach Hbright; cbv zeta.
  pose proof (reachable_brightOff h s Hreach) as Hinv.
  assert (Hoff : ledsEnabled (vars (lightBlock (clock w) s w)) = false)
    by (apply lightBlock_brightOff; assumption).
  assert (Hwrite : ledsEnabled s = true ->
            In (EvDigitalWrite LED_PIN LOW)
              (events (lightBlock (clock w) s w))
            /\ ledLevel (env (lightBlock (clock w) s w)) = false).
  { intros Hen; destruct (lightCheckDue s (clock w)) eqn:Hdue.
    - rewrite (lightBlock_isDark s w _ Hdue) in Hbright.
      destruct (lightBlock_runs s w _ Hdue) as [_ [He Hev]].
      rewrite He, Hev.
      assert (Hen1 : ledsEnabled
                       (vars (checkLight (set_lastLdrCheck (clock w) s) w))
                     = true).
      { rewrite (keeps_checkLight ledsEnabled) by reflexivity; exact Hen. }
      destruct (adaptInterval_switch_off _
                  (env (checkLight (set_lastLdrCheck (clock w) s) w))
                  Hbright Hen1) as [Hin Hlow].
      split; [apply in_or_app; right; exact Hin | exact Hlow].
    - rewrite (lightBlock_idle s w _ Hdue) in Hbright; cbn [vars] in Hbright.
      rewrite (Hinv Hbright) in Hen; discriminate. }
  pose proof (quiet_lightBlock (clock w) s w) as Hquiet.
  destruct (loop_blocks s w) as [Hv [_ Hev]].
  revert Hbright Hoff Hwrite Hquiet Hv Hev.
  generalize (lightBlock (clock w) s w); intros r1 Hbright Hoff Hwrite Hquiet.
  rewrite (motionBlock_skipped _ _ _ Hbright); cbn [vars env events].
  intros Hv Hev; rewrite app_nil_l in Hev.
  split; [exact Hoff |].
  split; [exact Hwrite |].
  split; [reflexivity |].
  split.
  { rewrite Hv, (keeps_runWatchdog ledsEnabled) by reflexivity; exact Hoff. }
  split; [exact Hev |].
  rewrite Hev; apply none_app; [exact Hquiet |].
  apply none_app; [apply runWatchdog_off; exact Hoff |].
  repeat constructor.
Qed.

(** ** The lockout *)

(** The conversions of one iteration: one if the light check is due, none
    otherwise. *)
Lemma loop_analogReads (s : State) (w : World) :
  analogReads (events (loop s w))
  = if lightCheckDue s (clock w) then 1%nat else 0%nat.
Proof.
  destruct (loop_blocks s w) as [_ [_ Hev]]; rewrite Hev; clear Hev.
  unfold analogReads; rewrite !count_app.
  assert (Hm : forall s1 w1,
             count isAnalogRead (events (motionBlock (clock w) s1 w1)) = 0%nat).
  { intros s1 w1; apply none_count.
    assert (Hq : quiet isAnalogRead (motionBlock (clock w))).
    { unfold motionBlock; quiet_all.
      - apply quiet_checkMotion; reflexivity.
      - unfold updateLeds; quiet_all; reflexivity. }
    apply Hq. }
  assert (Hw : forall s1 w1,
             count isAnalogRead (events (runWatchdog s1 w1)) = 0%nat).
  { intros s1 w1; apply none_count.
    assert (Hq : quiet isAnalogRead runWatchdog)
      by (unfold runWatchdog; quiet_all; reflexivity).
    apply Hq. }
  rewrite Hm, Hw; cbn [count filter isAnalogRead length Nat.add].
  destruct (lightCheckDue s (clock w)) eqn:Hdue.
  - destruct (lightBlock_runs s w _ Hdue) as [_ [_ Hev]]; rewrite Hev.
    rewrite count_app.
    assert (Ha : forall s1 w1,
               count isAnalogRead (events (adaptInterval s1 w1)) = 0%nat).
    { intros s1 w1; apply none_count.
      assert (Hq : quiet isAnalogRead adaptInterval)
        by (unfold adaptInterval; quiet_all; reflexivity).
      apply Hq. }
    rewrite Ha.
    assert (Hc : forall s1 w1,
               count isAnalogRead (events (checkLight s1 w1)) = 1%nat).
    { intros s1 w1; unfold checkLight; run.
      destruct (isDark s1); cbn [negb andb];
        repeat match goal with
          | |- context [if ?c then _ else _] => destruct c
          end; reflexivity. }
    rewrite Hc; reflexivity.
  - rewrite (lightBlock_idle s w _ Hdue); reflexivity.
Qed.

Lemma inLockout_not_due (s : State) (t : Z) :
  inLockoutPeriod s t = true -> lightCheckDue s t = false.
Proof. intros H; unfold lightCheckDue; rewrite H; reflexivity. Qed.

(** The lockout test of lines 228-231: at an iteration that starts with
    [ledsEnabled] set and whose timestamp is less than [LDR_LOCKOUT_PERIOD]
    after the [ledOnTime] stamp (unsigned difference), the light block does
    nothing: the iteration takes no conversion and leaves the variables of
    the light classifier and of its cadence as they were. *)
Lemma lockout_skips_light_check (s : State) (w : World) :
  ledsEnabled s = true ->
  ulong_sub (clock w) (ledOnTime s) < LDR_LOCKOUT_PERIOD ->
  lightBlock (clock w) s w = mkResult tt s w []
  /\ analogReads (events (loop s w)) = 0%nat
  /\ lightVars (vars (loop s w)) = lightVars s.
Proof.
  intros Hen Hwin.
  assert (Hlock : inLockoutPeriod s (clock w) = true).
  { unfold inLockoutPeriod; rewrite Hen; cbn [andb].
    change (to_ulong LDR_LOCKOUT_PERIOD) with LDR_LOCKOUT_PERIOD.
    apply Z.ltb_lt; exact Hwin. }
  pose proof (inLockout_not_due s _ Hlock) as Hdue.
  split; [apply lightBlock_idle; exact Hdue |].
  split; [rewrite loop_analogReads, Hdue; reflexivity |].
  destruct (loop_blocks s w) as [Hv _]; rewrite Hv.
  rewrite (lightBlock_idle s w _ Hdue); cbn [vars env].
  rewrite (keeps_runWatchdog lightVars) by reflexivity.
  apply (keeps_motionBlock lightVars); reflexivity.
Qed.

(** C10: the lockout is conditioned on the LEDs being on.  The lockout
    predicate holds only if [ledsEnabled] is set; with [ledsEnabled] clear,
    whatever the [ledOnTime] stamp, the light check is due exactly when the
    cadence says so, and the iteration then takes its conversion. *)
Theorem lockout_only_while_leds_on (s : State) (w : World) :
  (inLockoutPeriod s (clock w) = true -> ledsEnabled s = true)
  /\ (ledsEnabled s = false ->
      forall stamp,
        inLockoutPeriod (set_ledOnTime stamp s) (clock w) = false
        /\ lightCheckDue (set_ledOnTime stamp s) (clock w)
           = cadenceDue s (clock w)
        /\ analogReads (events (loop (set_ledOnTime stamp s) w))
           = if cadenceDue s (clock w) then 1%nat else 0%nat).
Proof.
  split.
  - unfold inLockoutPeriod; intros H; apply andb_true_iff in H; apply H.
  - intros Hoff stamp.
    assert (Hlock : inLockoutPeriod (set_ledOnTime stamp s) (clock w) = false).
    { unfold inLockoutPeriod; cbn [ledsEnabled set_ledOnTime]; rewrite Hoff.
      reflexivity. }
    assert (Hdue : lightCheckDue (set_ledOnTime stamp s) (clock w)
                   = cadenceDue s (clock w)).
    { unfold lightCheckDue; rewrite Hlock; reflexivity. }
    split; [exact Hlock | split; [exact Hdue |]].
    rewrite loop_analogReads, Hdue; reflexivity.
Qed.

(** [ledsOn] is a state of an execution. *)
Lemma ledsOn_reachable : reachable ledsOnHistory ledsOn.
Proof. apply reach_loop, reach_setup. Qed.

(** C7: the lockout window, on the code.  Line 46 declares a lockout of 6
    seconds after the LEDs turn on, but line 228 compares the difference of
    two millisecond timestamps with 6.  In the dark with steady motion the
    first iteration, at timestamp 3000, switches the LEDs on and stamps
    [ledOnTime]; the fourth iteration starts at timestamp 4098 with the LEDs
    still on, 1098 ms after the switch-on and well inside the declared 6
    seconds: the lockout test is false and the iteration takes its
    conversion. *)
Theorem lockout_shorter_than_declared :
  ledsEnabled (vars threeTicksLit) = true
  /\ ledOnTime (vars threeTicksLit) = 3000
  /\ clock (env threeTicksLit) = 4098
  /\ ulong_sub (clock (env threeTicksLit)) (ledOnTime (vars threeTicksLit))
     = 1098
  /\ inLockoutPeriod (vars threeTicksLit) (clock (env threeTicksLit)) = false
  /\ analogReads (events (loop (vars threeTicksLit) (env threeTicksLit)))
     = 1%nat.
Proof.
  split; [vm_compute; reflexivity |].
  split; [vm_compute; reflexivity |].
  split; [vm_compute; reflexivity |].
  split; [vm_compute; reflexivity |].
  split; [vm_compute; reflexivity |].
  rewrite loop_analogReads; vm_compute; reflexivity.
Qed.

(** ** The theorems at concrete states *)

Lemma checkLight_hysteresis_witness :
  thresholdInRange calibratedDark
  /\ isDark (vars (checkLight calibratedDark (steadyBoard 0 false 90))) = true.
Proof.
  assert (H : thresholdInRange calibratedDark)
    by (unfold thresholdInRange; cbn; lia).
  split; [exact H |].
  pose proof (checkLight_hysteresis calibratedDark (steadyBoard 0 false 90) H)
    as Hthm; cbv zeta in Hthm.
  destruct Hthm as [Hstay _]; apply Hstay; [reflexivity |].
  vm_compute; split; reflexivity.
Defined.

Lemma brightRun_reachable (n : nat) :
  reachable (fst (brightRun n)) (snd (brightRun n)).
Proof.
  induction n as [| n IH]; [apply reach_setup |].
  cbn [brightRun fst snd]; apply reach_loop, IH.
Qed.

Lemma adaptive_cadence_witness :
  reachable (fst (brightRun 5)) (snd (brightRun 5))
  /\ currentLdrInterval (snd (brightRun 5)) = LDR_SLOW_INTERVAL
  /\ enteredSlow (fst (brightRun 5)).
Proof.
  pose proof (brightRun_reachable 5) as H.
  split; [exact H |].
  assert (Hslow : currentLdrInterval (snd (brightRun 5)) = LDR_SLOW_INTERVAL)
    by (vm_compute; reflexivity).
  split; [exact Hslow |].
  destruct (adaptive_cadence _ _ H) as [_ [Hent _]].
  apply Hent, Hslow.
Defined.

Lemma bright_forces_leds_off_witness :
  reachable ledsOnHistory ledsOn
  /\ isDark (vars (lightBlock 20000 ledsOn (steadyBoard 20000 false 1023)))
     = false
  /\ ledsEnabled ledsOn = true
  /\ ledsEnabled (vars (loop ledsOn (steadyBoard 20000 false 1023))) = false.
Proof.
  assert (Hd : isDark
                 (vars (lightBlock (clock (steadyBoard 20000 false 1023))
                          ledsOn (steadyBoard 20000 false 1023))) = false)
    by (vm_compute; reflexivity).
  split; [exact ledsOn_reachable |].
  split; [exact Hd |].
  split; [vm_compute; reflexivity |].
  pose proof (bright_forces_leds_off ledsOnHistory ledsOn
                (steadyBoard 20000 false 1023) ledsOn_reachable Hd) as Hthm.
  cbv zeta in Hthm; apply Hthm.
Defined.

(** The lockout test suppressing a light check that the cadence would
    run: the LEDs were switched on 3 ms ago and the last check is 1001 ms
    old. *)
Example lockout_suppresses_due_check :
  cadenceDue (set_lastLdrCheck 9002 ledsOn) 10003 = true
  /\ analogReads
       (events (loop (set_lastLdrCheck 9002 ledsOn) (steadyBoard 10003 true 0)))
     = 0%nat.
Proof.
  split; [vm_compute; reflexivity |].
  apply (lockout_skips_light_check (set_lastLdrCheck 9002 ledsOn)
           (steadyBoard 10003 true 0)); vm_compute; reflexivity.
Qed.

(** ** Frame rules for the board *)

Section EnvRules.

Context {B : Type} (g : World -> B).

Lemma keepsEnv_bind {A C} (m : M A) (k : A -> M C) :
  keepsEnv g m -> (forall a, keepsEnv g (k a)) -> keepsEnv g (bind m k).
Proof. intros Hm Hk s w; rewrite bind_env, Hk; apply Hm. Qed.

Lemma keepsEnv_pure {A} (m : M A) :
  (forall s w, env (m s w) = w) -> keepsEnv g m.
Proof. intros H s w; rewrite H; reflexivity. Qed.

Lemma keepsEnv_when (c : bool) (m : M unit) :
  keepsEnv g m -> keepsEnv g (when c m).
Proof. intros H; destruct c; [exact H | apply keepsEnv_pure; reflexivity]. Qed.

Lemma keepsEnv_delay (ms : Z) :
  (forall w c,
     g (mkWorld c (ledLevel w) (pirLine w) (pirSamples w) (ldrLine w)
          (ldrSamples w)) = g w) ->
  keepsEnv g (delay ms).
Proof. intros H s w; apply H. Qed.

Lemma keepsEnv_digitalRead (pin : Z) :
  (forall w n,
     g (mkWorld (clock w) (ledLevel w) (pirLine w) n (ldrLine w)
          (ldrSamples w)) = g w) ->
  keepsEnv g (digitalRead pin).
Proof.
  intros H s w; unfold digitalRead.
  destruct (pin =? LED_PIN); [reflexivity |].
  destruct (pin =? PIR_PIN); [apply H | reflexivity].
Qed.

Lemma keepsEnv_digitalWrite (pin level : Z) :
  (forall w b,
     g (mkWorld (clock w) b (pirLine w) (pirSamples w) (ldrLine w)
          (ldrSamples w)) = g w) ->
  keepsEnv g (digitalWrite pin level).
Proof.
  intros H s w; unfold digitalWrite.
  destruct (pin =? LED_PIN); [apply H | reflexivity].
Qed.

End EnvRules.

Ltac env_step :=
  lazymatch goal with
  | |- keepsEnv _ (bind _ _) => apply keepsEnv_bind; [| intros ?]
  | |- keepsEnv _ (ret _) => apply keepsEnv_pure; reflexivity
  | |- keepsEnv _ skip => apply keepsEnv_pure; reflexivity
  | |- keepsEnv _ (rd _) => apply keepsEnv_pure; reflexivity
  | |- keepsEnv _ (assign _ _) => apply keepsEnv_pure; reflexivity
  | |- keepsEnv _ millis => apply keepsEnv_pure; reflexivity
  | |- keepsEnv _ (pinMode _ _) => apply keepsEnv_pure; reflexivity
  | |- keepsEnv _ (Serial_begin _) => apply keepsEnv_pure; reflexivity
  | |- keepsEnv _ (Serial_println _) => apply keepsEnv_pure; reflexivity
  | |- keepsEnv _ (debug _) => unfold debug
  | |- keepsEnv _ (when _ _) => apply keepsEnv_when
  | |- keepsEnv _ (delay _) => apply keepsEnv_delay; intros; reflexivity
  | |- keepsEnv _ (digitalRead _) =>
      apply keepsEnv_digitalRead; intros; reflexivity
  | |- keepsEnv _ (digitalWrite _ _) =>
      apply keepsEnv_digitalWrite; intros; reflexivity
  | |- keepsEnv _ (if ?c then _ else _) => destruct c
  end.

Ltac env_all := cbv zeta; repeat env_step.

Lemma keepsEnv_throttledPrint {B} (g : World -> B) (t : Z) (m : Msg) :
  keepsEnv g (throttledPrint t m).
Proof. unfold throttledPrint; env_all. Qed.

(** Nothing but [checkLight] and the loop of [setup] touches the LDR side
    of the board. *)
Lemma ldrSide_debounceMotion : keepsEnv ldrSide debounceMotion.
Proof.
  assert (H : forall n c, keepsEnv ldrSide (debounceReads n c)).
  { induction n as [| n IH]; intros c; cbn [debounceReads]; env_all.
    apply IH. }
  unfold debounceMotion; env_all; apply H.
Qed.

Lemma ldrSide_checkMotion : keepsEnv ldrSide checkMotion.
Proof.
  unfold checkMotion; cbv zeta;
    repeat first [ apply keepsEnv_throttledPrint
                 | apply ldrSide_debounceMotion
                 | env_step ].
Qed.

Lemma ldrSide_updateLeds (t : Z) : keepsEnv ldrSide (updateLeds t).
Proof. unfold updateLeds; env_all. Qed.

Lemma ldrSide_motionBlock (t : Z) : keepsEnv ldrSide (motionBlock t).
Proof.
  unfold motionBlock; env_all;
    [apply ldrSide_checkMotion | apply ldrSide_updateLeds].
Qed.

Lemma ldrSide_runWatchdog : keepsEnv ldrSide runWatchdog.
Proof. unfold runWatchdog; env_all. Qed.

Lemma ldrSide_adaptInterval : keepsEnv ldrSide adaptInterval.
Proof. unfold adaptInterval; env_all. Qed.

(** ** The moving average along an execution *)

Lemma ringInv_frame (s s' : State) (w w' : World) :
  ringView s' = ringView s -> ldrSide w' = ldrSide w ->
  ringInv s w -> ringInv s' w'.
Proof.
  unfold ringView, ldrSide; intros Hs Hw [Hadc [[m [Hm [Ht Hb]]] Havg]].
  injection Hs as Hr Hi Htot Hav; injection Hw as Hl Hn.
  split; [| split].
  - intro k; rewrite Hl; apply Hadc.
  - exists m; rewrite Hn, Hl; split; [exact Hm |].
    unfold window; rewrite Htot, Hi, Hr; split; assumption.
  - unfold lastThreeMean; rewrite Hav, Hn, Hl; exact Havg.
Qed.

Lemma checkLight_ringInv (s : State) (w : World) :
  (adcLine w /\ windowAt s w) ->
  ringInv (vars (checkLight s w)) (env (checkLight s w))
  /\ ldrLine (env (checkLight s w)) = ldrLine w.
Proof.
  intros [Hadc Hwin].
  destruct (checkLight_window s w Hadc Hwin) as [H1 [H2 H3]].
  split; [split; [exact H3 | split; [exact H1 | exact H2]] |].
  rewrite checkLight_env; reflexivity.
Qed.

Lemma lightBlock_ringInv (s : State) (w : World) (t : Z) :
  ringInv s w ->
  ringInv (vars (lightBlock t s w)) (env (lightBlock t s w))
  /\ ldrLine (env (lightBlock t s w)) = ldrLine w.
Proof.
  intros Hinv; destruct (lightCheckDue s t) eqn:Hdue.
  - destruct (lightBlock_runs s w t Hdue) as [Hv [He _]]; rewrite Hv, He.
    assert (H0 : adcLine w /\ windowAt (set_lastLdrCheck t s) w).
    { destruct Hinv as [Hadc [[m [Hm Hwin]] _]]; split; [exact Hadc |].
      exists m; split; [exact Hm | exact Hwin]. }
    destruct (checkLight_ringInv _ _ H0) as [H1 Hl].
    revert H1 Hl; generalize (checkLight (set_lastLdrCheck t s) w).
    intros r1 H1 Hl.
    pose proof (ldrSide_adaptInterval (vars r1) (env r1)) as Hside.
    split.
    + apply (ringInv_frame (vars r1) _ (env r1) _); [| exact Hside | exact H1].
      apply (keeps_adaptInterval ringView); reflexivity.
    + unfold ldrSide in Hside; injection Hside as Hl' _; rewrite Hl'; exact Hl.
  - rewrite (lightBlock_idle s w t Hdue); split; [exact Hinv | reflexivity].
Qed.

Lemma loop_ringInv (s : State) (w : World) :
  ringInv s w ->
  ringInv (vars (loop s w)) (env (loop s w))
  /\ ldrLine (env (loop s w)) = ldrLine w.
Proof.
  intros Hinv; destruct (loop_blocks s w) as [Hv [He _]]; rewrite Hv, He.
  destruct (lightBlock_ringInv s w (clock w) Hinv) as [H1 Hl1].
  revert H1 Hl1; generalize (lightBlock (clock w) s w); intros r1 H1 Hl1.
  pose proof (ldrSide_motionBlock (clock w) (vars r1) (env r1)) as Hs2.
  pose proof (keeps_motionBlock ringView (clock w)
                ltac:(reflexivity) ltac:(reflexivity) ltac:(reflexivity)
                ltac:(reflexivity) ltac:(reflexivity) (vars r1) (env r1))
    as Hv2.
  revert Hs2 Hv2; generalize (motionBlock (clock w) (vars r1) (env r1)).
  intros r2 Hs2 Hv2.
  pose proof (ldrSide_runWatchdog (vars r2) (env r2)) as Hs3.
  pose proof (keeps_runWatchdog ringView ltac:(reflexivity) (vars r2) (env r2))
    as Hv3.
  revert Hs3 Hv3; generalize (runWatchdog (vars r2) (env r2)).
  intros r3 Hs3 Hv3.
  assert (Hside : ldrSide (env (delay 300 (vars r3) (env r3)))
                  = ldrSide (env r1)).
  { transitivity (ldrSide (env r3)); [reflexivity |].
    rewrite Hs3; exact Hs2. }
  split.
  - apply (ringInv_frame (vars r1) _ (env r1) _); [| exact Hside | exact H1].
    rewrite Hv3; exact Hv2.
  - unfold ldrSide in Hside; injection Hside as Hl _.
    change (ldrLine (env r3) = ldrLine w); rewrite Hl; exact Hl1.
Qed.

Lemma ticks_ringInv (n : nat) :
  forall s w,
    ringInv s w ->
    ringInv (vars (ticks n s w)) (env (ticks n s w))
    /\ ldrLine (env (ticks n s w)) = ldrLine w.
Proof.
  induction n as [| n IH]; intros s w Hinv.
  - split; [exact Hinv | reflexivity].
  - cbn [ticks]; rewrite bind_vars, bind_env.
    destruct (loop_ringInv s w Hinv) as [H1 Hl1].
    destruct (IH _ _ H1) as [H2 Hl2].
    split; [exact H2 | rewrite Hl2; exact Hl1].
Qed.

Lemma lastThreeMean_range (w : World) :
  adcLine w -> 0 <= lastThreeMean w <= 1023.
Proof.
  intros Hadc; unfold lastThreeMean.
  destruct (ldrSamples w) as [| [| [| m]]]; try lia.
  pose proof (Hadc (S (S m))) as Ha; pose proof (Hadc (S m)) as Hb.
  pose proof (Hadc m) as Hc; unfold adc in *.
  set (t := ldrLine w (S (S m)) + ldrLine w (S m) + ldrLine w m).
  assert (Ht : 0 <= t <= 3069) by (unfold t; lia).
  pose proof (Z.quot_pos t 3 ltac:(lia) ltac:(lia)).
  pose proof (Z.quot_le_upper_bound t 3 1023 ltac:(lia) ltac:(lia)).
  lia.
Qed.

(** X8: The moving average along an execution of the sketch: on a board whose
    conversions are in the converter's range, after [setup] and any number
    of iterations of [loop], [ldrAverage] is the integer mean of the three
    most recent conversions and lies in the converter's range. *)
Theorem sketch_moving_average (w : World) (n : nat) :
  adcLine w ->
  let r := sketch n initState w in
  ldrAverage (vars r) = lastThreeMean (env r)
  /\ 0 <= ldrAverage (vars r) <= 1023
  /\ ldrLine (env r) = ldrLine w.
Proof.
  intros Hadc; cbv zeta; unfold sketch; rewrite bind_vars, bind_env.
  destruct (setup_window w Hadc) as [Hwin [Havg [_ Hl]]].
  assert (H0 : ringInv (vars (setup initState w)) (env (setup initState w))).
  { split; [intro k; rewrite Hl; apply Hadc | split; assumption]. }
  destruct (ticks_ringInv n _ _ H0) as [[Hadc' [_ Havg']] Hl'].
  split; [exact Havg' | split].
  - rewrite Havg'; apply lastThreeMean_range, Hadc'.
  - rewrite Hl'; exact Hl.
Qed.

Lemma sketch_moving_average_witness :
  adcLine brightThenDark
  /\ ldrAverage (vars (sketch 5 initState brightThenDark)) = 0.
Proof.
  assert (H : adcLine brightThenDark).
  { intro k; unfold adc, brightThenDark; cbn [ldrLine].
    destruct (k <? 3)%nat; lia. }
  split; [exact H |].
  pose proof (sketch_moving_average brightThenDark 5 H) as Hm.
  cbv zeta in Hm; destruct Hm as [Havg _].
  rewrite Havg; vm_compute; reflexivity.
Defined.

(** ** The ring buffer in every reachable state *)

Lemma to_int_add_l (a b : Z) : to_int (to_int a + b) = to_int (a + b).
Proof.
  unfold to_int, int_modulus.
  replace ((a + 32768) mod 65536 - 32768 + b + 32768)
    with ((a + 32768) mod 65536 + b) by lia.
  rewrite Zplus_mod_idemp_l.
  replace (a + 32768 + b) with (a + b + 32768) by lia; reflexivity.
Qed.

Lemma to_int_sub_l (a b : Z) : to_int (to_int a - b) = to_int (a - b).
Proof.
  replace (to_int a - b) with (to_int a + - b) by lia.
  rewrite to_int_add_l; f_equal; lia.
Qed.

(** One insertion keeps the buffer well formed, whatever the reading. *)
Lemma pushReading_ringWF (s : State) (v : Z) :
  ringWF s -> ringWF (pushReading s v).
Proof.
  destruct s as [n i md mst lst lwc buf idx tot avg thr dark llc en lon].
  unfold ringWF, cursorInBounds, sumInv, pushReading, numReadings;
    cbn [ldrTotal readIndex ldrReadings ldrAverage set_ldrAverage
         set_readIndex set_ldrTotal set_ldrReadings].
  intros [[Hlen Hidx] Hsum].
  destruct buf as [| a [| b [| c [| d buf]]]]; try discriminate Hlen.
  assert (Hcases : idx = 0 \/ idx = 1 \/ idx = 2) by lia.
  unfold int_add, int_sub; subst tot.
  destruct Hcases as [-> | [-> | ->]];
    unfold arr_get, arr_set;
    [ change (Z.to_nat 0) with 0%nat
    | change (Z.to_nat 1) with 1%nat
    | change (Z.to_nat 2) with 2%nat ];
    cbn [arr_put nth length sumZ fold_right];
    rewrite to_int_sub_l, to_int_add_l;
    (split; [split; [reflexivity | vm_compute; split; [discriminate | reflexivity]] |]);
    f_equal; lia.
Qed.

Lemma ringWF_frame (s s' : State) :
  ringView s' = ringView s -> ringWF s -> ringWF s'.
Proof.
  unfold ringView, ringWF, cursorInBounds, sumInv; intros Hv.
  injection Hv as Hr Hi Ht _; rewrite Hr, Hi, Ht; auto.
Qed.

Lemma checkLight_ringWF (s : State) (w : World) :
  ringWF s -> ringWF (vars (checkLight s w)).
Proof.
  intros H; rewrite checkLight_vars; cbv zeta.
  pose proof (pushReading_ringWF s (nextReading w) H) as H1.
  revert H1; generalize (pushReading s (nextReading w)); intros s1 H1.
  apply (ringWF_frame s1); [reflexivity | exact H1].
Qed.

(** The loop of [setup], from the initial globals. *)
Lemma fillReadings_ring (w : World) :
  ringWF (vars (fillReadings 3 0 initState w)).
Proof.
  cbv [fillReadings]; run.
  cbn [ldrReadings ldrTotal set_ldrReadings set_ldrTotal initState].
  change (int_add 0 1) with 1; change (int_add 1 1) with 2.
  unfold arr_get, arr_set.
  change (Z.to_nat 0) with 0%nat; change (Z.to_nat 1) with 1%nat;
    change (Z.to_nat 2) with 2%nat; cbn [arr_put nth].
  unfold ringWF, cursorInBounds, sumInv, numReadings;
    cbn [ldrReadings ldrTotal readIndex set_ldrReadings set_ldrTotal
         initState length sumZ fold_right
         ldrSamples ldrLine clock ledLevel pirLine pirSamples].
  split; [split; [reflexivity | lia] |].
  generalize (to_int (ldrLine w (ldrSamples w))); intros x0.
  generalize (to_int (ldrLine w (S (ldrSamples w)))); intros x1.
  generalize (to_int (ldrLine w (S (S (ldrSamples w))))); intros x2.
  unfold int_add.
  rewrite (to_int_add_l (0 + x0) x1), (to_int_add_l (0 + x0 + x1) x2).
  f_equal; lia.
Qed.

Lemma setup_ringWF (w : World) : ringWF (vars (setup initState w)).
Proof.
  destruct (setup_steps w) as [Hv _]; rewrite Hv; clear Hv.
  pose proof (fillReadings_ring
                (mkWorld (clock w) false (pirLine w) (pirSamples w)
                   (ldrLine w) (ldrSamples w))) as H.
  revert H; generalize (fillReadings 3 0 initState
                          (mkWorld (clock w) false (pirLine w) (pirSamples w)
                             (ldrLine w) (ldrSamples w))).
  intros r1 H; apply checkLight_ringWF.
  apply (ringWF_frame (vars r1)); [reflexivity | exact H].
Qed.

Lemma lightBlock_ringWF (s : State) (w : World) (t : Z) :
  ringWF s -> ringWF (vars (lightBlock t s w)).
Proof.
  intros H; destruct (lightCheckDue s t) eqn:Hdue.
  - destruct (lightBlock_runs s w t Hdue) as [Hv _]; rewrite Hv.
    assert (H1 : ringWF (vars (checkLight (set_lastLdrCheck t s) w))).
    { apply checkLight_ringWF, (ringWF_frame s); [reflexivity | exact H]. }
    revert H1; generalize (checkLight (set_lastLdrCheck t s) w); intros r1 H1.
    apply (ringWF_frame (vars r1)); [| exact H1].
    apply (keeps_adaptInterval ringView); reflexivity.
  - rewrite (lightBlock_idle s w t Hdue); exact H.
Qed.

Lemma loop_ringWF (s : State) (w : World) :
  ringWF s -> ringWF (vars (loop s w)).
Proof.
  intros H; destruct (loop_blocks s w) as [Hv _]; rewrite Hv.
  pose proof (lightBlock_ringWF s w (clock w) H) as H1.
  revert H1; generalize (lightBlock (clock w) s w); intros r1 H1.
  apply (ringWF_frame (vars r1)); [| exact H1].
  rewrite (keeps_runWatchdog ringView) by reflexivity.
  apply (keeps_motionBlock ringView); reflexivity.
Qed.

Lemma reachable_ringWF (h : list (bool * Z)) (s : State) :
  reachable h s -> ringWF s.
Proof.
  induction 1 as [w | h s w _ IH];
    [apply setup_ringWF | apply loop_ringWF, IH].
Qed.

(** X9: The array accesses of [checkLight] are in bounds: in every reachable
    state the array has its three slots and [readIndex] is 0, 1 or 2. *)
Theorem ring_cursor_in_bounds (h : list (bool * Z)) (s : State) :
  reachable h s ->
  length (ldrReadings s) = 3%nat /\ 0 <= readIndex s < numReadings.
Proof. intros H; exact (proj1 (reachable_ringWF h s H)). Qed.

Lemma ring_cursor_in_bounds_witness :
  reachable ledsOnHistory ledsOn /\ 0 <= readIndex ledsOn < numReadings.
Proof.
  split; [exact ledsOn_reachable |].
  exact (proj2 (ring_cursor_in_bounds _ _ ledsOn_reachable)).
Defined.

(** X10: The running sum: in every reachable state, and whatever the readings,
    [ldrTotal] is the sum of the three buffered readings as a 16-bit
    [int]. *)
Theorem running_sum_invariant (h : list (bool * Z)) (s : State) :
  reachable h s -> ldrTotal s = to_int (sumZ (ldrReadings s)).
Proof. intros H; exact (proj2 (reachable_ringWF h s H)). Qed.

Lemma running_sum_invariant_witness :
  reachable (fst (brightRun 5)) (snd (brightRun 5))
  /\ ldrTotal (snd (brightRun 5))
     = to_int (sumZ (ldrReadings (snd (brightRun 5)))).
Proof.
  split; [exact (brightRun_reachable 5) |].
  exact (running_sum_invariant _ _ (brightRun_reachable 5)).
Defined.

(** ** When the LEDs can be on *)

(** The adaptive block leaves [ledsEnabled] alone in the dark. *)
Lemma adaptInterval_dark_leds (s : State) (w : World) :
  isDark s = true -> ledsEnabled (vars (adaptInterval s w)) = ledsEnabled s.
Proof.
  intros Hd; unfold adaptInterval; run; rewrite Hd.
  cbn [currentLdrInterval set_consecutiveLightReadings].
  destruct (currentLdrInterval s =? LDR_SLOW_INTERVAL); reflexivity.
Qed.

Lemma updateLeds_follows (t : Z) (s : State) (w : World) :
  ledsEnabled (vars (updateLeds t s w)) = motionDetected s
  /\ motionDetected (vars (updateLeds t s w)) = motionDetected s
  /\ isDark (vars (updateLeds t s w)) = isDark s.
Proof.
  destruct (bool_dec (ledsEnabled s) (motionDetected s)) as [Heq | Hne].
  - rewrite (updateLeds_same t s w Heq); auto.
  - rewrite (updateLeds_change t s w Hne).
    destruct (motionDetected s) eqn:Hm;
      cbn [vars ledsEnabled motionDetected isDark set_ledOnTime
           set_ledsEnabled]; rewrite ?Hm; auto.
Qed.

Lemma lightBlock_ledsJustified (s : State) (w : World) (t : Z) :
  ledsJustified s -> ledsJustified (vars (lightBlock t s w)).
Proof.
  intros Hinv; destruct (lightCheckDue s t) eqn:Hdue.
  - destruct (lightBlock_runs s w t Hdue) as [Hv _]; rewrite Hv.
    assert (H1 : ledsEnabled (vars (checkLight (set_lastLdrCheck t s) w))
                 = ledsEnabled s)
      by (rewrite (keeps_checkLight ledsEnabled) by reflexivity;
          reflexivity).
    assert (H2 : motionDetected (vars (checkLight (set_lastLdrCheck t s) w))
                 = motionDetected s)
      by (rewrite (keeps_checkLight motionDetected) by reflexivity;
          reflexivity).
    revert H1 H2; generalize (checkLight (set_lastLdrCheck t s) w).
    intros r1 H1 H2 Hen.
    rewrite (keeps_adaptInterval isDark) by reflexivity.
    rewrite (keeps_adaptInterval motionDetected) by reflexivity.
    destruct (isDark (vars r1)) eqn:Hd.
    + rewrite (adaptInterval_dark_leds _ _ Hd), H1 in Hen.
      rewrite H2; split; [reflexivity | apply Hinv, Hen].
    + destruct (adaptInterval_light (vars r1) (env r1) Hd) as [_ [_ [_ Hoff]]].
      rewrite Hoff in Hen; discriminate.
  - rewrite (lightBlock_idle s w t Hdue); exact Hinv.
Qed.

Lemma motionBlock_ledsJustified (s : State) (w : World) (t : Z) :
  ledsJustified s -> ledsJustified (vars (motionBlock t s w)).
Proof.
  intros Hinv; destruct (isDark s) eqn:Hd.
  - destruct (motionBlock_runs t s w Hd) as [Hv _]; rewrite Hv.
    assert (H1 : isDark (vars (checkMotion s w)) = true)
      by (rewrite (keeps_checkMotion isDark) by reflexivity; exact Hd).
    revert H1; generalize (checkMotion s w); intros r1 H1.
    destruct (updateLeds_follows t (vars r1) (env r1)) as [Hen [Hmd Hdk]].
    intros Hon; rewrite Hdk, Hmd, <- Hen; auto.
  - rewrite (motionBlock_skipped t s w Hd); exact Hinv.
Qed.

Lemma loop_ledsJustified (s : State) (w : World) :
  ledsJustified s -> ledsJustified (vars (loop s w)).
Proof.
  intros Hinv; destruct (loop_blocks s w) as [Hv _]; rewrite Hv.
  pose proof (lightBlock_ledsJustified s w (clock w) Hinv) as H1.
  revert H1; generalize (lightBlock (clock w) s w); intros r1 H1.
  pose proof (motionBlock_ledsJustified (vars r1) (env r1) (clock w) H1) as H2.
  revert H2; generalize (motionBlock (clock w) (vars r1) (env r1)).
  intros r2 H2; unfold ledsJustified.
  rewrite (keeps_runWatchdog ledsEnabled), (keeps_runWatchdog isDark),
    (keeps_runWatchdog motionDetected) by reflexivity.
  exact H2.
Qed.

(** X11: The LEDs are enabled only in the dark and during a motion cycle: in
    every reachable state [ledsEnabled] implies [isDark] and
    [motionDetected]. *)
Theorem leds_on_only_dark_and_motion (h : list (bool * Z)) (s : State) :
  reachable h s ->
  ledsEnabled s = true -> isDark s = true /\ motionDetected s = true.
Proof.
  induction 1 as [w | h s w _ IH].
  - rewrite (keeps_setup ledsEnabled) by reflexivity; discriminate.
  - apply loop_ledsJustified; exact IH.
Qed.

Lemma leds_on_only_dark_and_motion_witness :
  reachable ledsOnHistory ledsOn
  /\ ledsEnabled ledsOn = true
  /\ isDark ledsOn = true /\ motionDetected ledsOn = true.
Proof.
  assert (H : ledsEnabled ledsOn = true) by (vm_compute; reflexivity).
  split; [exact ledsOn_reachable | split; [exact H |]].
  exact (leds_on_only_dark_and_motion _ _ ledsOn_reachable H).
Defined.

(** ** The LED pin along an execution *)

Lemma ledLevel_checkLight : keepsEnv ledLevel checkLight.
Proof. intros s w; rewrite checkLight_env; reflexivity. Qed.

Lemma ledLevel_checkMotion : keepsEnv ledLevel checkMotion.
Proof.
  assert (H : forall n c, keepsEnv ledLevel (debounceReads n c)).
  { induction n as [| n IH]; intros c; cbn [debounceReads]; env_all.
    apply IH. }
  assert (Hd : keepsEnv ledLevel debounceMotion)
    by (unfold debounceMotion; env_all; apply H).
  unfold checkMotion; cbv zeta;
    repeat first [ apply keepsEnv_throttledPrint
                 | apply Hd
                 | env_step ].
Qed.

Lemma adaptInterval_sync (s : State) (w : World) :
  pinInSync s w ->
  pinInSync (vars (adaptInterval s w)) (env (adaptInterval s w)).
Proof.
  unfold pinInSync.
  destruct s as [n i md mst lst lwc buf idx tot avg thr dark llc en lon].
  cbn [ledsEnabled]; intros Hsync; subst en.
  destruct dark; unfold adaptInterval; run;
    cbn [isDark currentLdrInterval consecutiveLightReadings ledsEnabled
         set_consecutiveLightReadings set_currentLdrInterval];
    cbv [digitalWrite]; change (LED_PIN =? LED_PIN) with true; cbv iota.
  - destruct (i =? LDR_SLOW_INTERVAL); reflexivity.
  - destruct (LIGHT_HISTORY_THRESHOLD <=? _);
      destruct (i =? LDR_FAST_INTERVAL);
      destruct (ledLevel w) eqn:Hl; cbn; rewrite ?Hl; reflexivity.
Qed.

Lemma lightBlock_sync (s : State) (w : World) (t : Z) :
  pinInSync s w ->
  pinInSync (vars (lightBlock t s w)) (env (lightBlock t s w)).
Proof.
  intros Hsync; destruct (lightCheckDue s t) eqn:Hdue.
  - destruct (lightBlock_runs s w t Hdue) as [Hv [He _]]; rewrite Hv, He.
    apply adaptInterval_sync; unfold pinInSync.
    rewrite ledLevel_checkLight.
    rewrite (keeps_checkLight ledsEnabled) by reflexivity; exact Hsync.
  - rewrite (lightBlock_idle s w t Hdue); exact Hsync.
Qed.

Lemma updateLeds_sync (t : Z) (s : State) (w : World) :
  pinInSync s w ->
  pinInSync (vars (updateLeds t s w)) (env (updateLeds t s w)).
Proof.
  intros Hsync.
  destruct (bool_dec (ledsEnabled s) (motionDetected s)) as [Heq | Hne].
  - rewrite (updateLeds_same t s w Heq); exact Hsync.
  - rewrite (updateLeds_change t s w Hne); unfold pinInSync.
    destruct (motionDetected s); reflexivity.
Qed.

Lemma motionBlock_sync (s : State) (w : World) (t : Z) :
  pinInSync s w ->
  pinInSync (vars (motionBlock t s w)) (env (motionBlock t s w)).
Proof.
  intros Hsync; destruct (isDark s) eqn:Hd.
  - destruct (motionBlock_runs t s w Hd) as [Hv [He _]]; rewrite Hv, He.
    apply updateLeds_sync; unfold pinInSync.
    rewrite ledLevel_checkMotion.
    rewrite (keeps_checkMotion ledsEnabled) by reflexivity; exact Hsync.
  - rewrite (motionBlock_skipped t s w Hd); exact Hsync.
Qed.

(** With the pin in sync the watchdog finds nothing to repair. *)
Lemma runWatchdog_in_sync (s : State) (w : World) :
  pinInSync s w ->
  ledWrites (events (runWatchdog s w)) = 0%nat
  /\ env (runWatchdog s w) = w
  /\ ledsEnabled (vars (runWatchdog s w)) = ledsEnabled s.
Proof.
  unfold pinInSync; intros Hsync.
  destruct (watchdogDue s (clock w)) eqn:Hdue.
  - rewrite (runWatchdog_fires s w Hdue), Hsync, eqb_reflx; auto.
  - rewrite (runWatchdog_idle s w Hdue); auto.
Qed.

Lemma loop_sync (s : State) (w : World) :
  pinInSync s w ->
  pinInSync (vars (loop s w)) (env (loop s w))
  /\ ledWrites
       (events
          (runWatchdog
             (vars (motionBlock (clock w)
                      (vars (lightBlock (clock w) s w))
                      (env (lightBlock (clock w) s w))))
             (env (motionBlock (clock w)
                     (vars (lightBlock (clock w) s w))
                     (env (lightBlock (clock w) s w))))))
     = 0%nat.
Proof.
  intros Hsync; destruct (loop_blocks s w) as [Hv [He _]]; rewrite Hv, He.
  pose proof (lightBlock_sync s w (clock w) Hsync) as H1.
  revert H1; generalize (lightBlock (clock w) s w); intros r1 H1.
  pose proof (motionBlock_sync (vars r1) (env r1) (clock w) H1) as H2.
  revert H2; generalize (motionBlock (clock w) (vars r1) (env r1)).
  intros r2 H2.
  destruct (runWatchdog_in_sync (vars r2) (env r2) H2) as [Hq [He3 Hen3]].
  split; [| exact Hq].
  unfold pinInSync; cbn [delay env ledLevel].
  rewrite He3, Hen3; exact H2.
Qed.

Lemma setup_sync (w : World) :
  pinInSync (vars (setup initState w)) (env (setup initState w)).
Proof.
  unfold pinInSync.
  rewrite (keeps_setup ledsEnabled) by reflexivity.
  assert (Hfill : forall n i, keepsEnv ledLevel (fillReadings n i)).
  { induction n as [| n IH]; intros i; cbn [fillReadings]; env_all.
    - intros s0 w0; reflexivity.
    - apply IH. }
  pose proof (Hfill 3%nat 0 initState
                (mkWorld (clock w) false (pirLine w) (pirSamples w)
                   (ldrLine w) (ldrSamples w))) as H1.
  cbn [ledLevel] in H1.
  unfold setup, calibrateLDR; run.
  cbv [digitalWrite LED_PIN LOW Z.eqb Pos.eqb negb].
  change (Z.to_nat numReadings) with 3%nat.
  revert H1; generalize (fillReadings 3 0 initState
                           (mkWorld (clock w) false (pirLine w) (pirSamples w)
                              (ldrLine w) (ldrSamples w))).
  intros [u1 s1 w1 e1] H1; cbn [env] in H1.
  pose proof (ledLevel_checkLight (set_ldrThreshold 30 s1) w1) as H2.
  revert H2; generalize (checkLight (set_ldrThreshold 30 s1) w1).
  intros [u2 s2 w2 e2] H2; cbn [env] in H2.
  cbn [ledLevel initState ledsEnabled]; rewrite H2; exact H1.
Qed.

Lemma ticks_sync (n : nat) :
  forall s w,
    pinInSync s w -> pinInSync (vars (ticks n s w)) (env (ticks n s w)).
Proof.
  induction n as [| n IH]; intros s w Hsync; [exact Hsync |].
  cbn [ticks]; rewrite bind_vars, bind_env.
  apply IH, loop_sync, Hsync.
Qed.

(** X12: Along an execution of the sketch from power-on the LED pin is at the
    level of [ledsEnabled] after [setup] and after every iteration, and so
    the watchdog of the next iteration finds nothing to repair: the sketch
    only ever needs its watchdog when something outside it has changed the
    pin. *)
Theorem pin_follows_ledsEnabled (w : World) (n : nat) :
  let r := sketch n initState w in
  let r1 := lightBlock (clock (env r)) (vars r) (env r) in
  let r2 := motionBlock (clock (env r)) (vars r1) (env r1) in
  ledLevel (env r) = ledsEnabled (vars r)
  /\ ledWrites (events (runWatchdog (vars r2) (env r2))) = 0%nat.
Proof.
  cbv zeta.
  assert (H : pinInSync (vars (sketch n initState w))
                (env (sketch n initState w))).
  { unfold sketch; rewrite bind_vars, bind_env.
    apply ticks_sync, setup_sync. }
  split; [exact H | exact (proj2 (loop_sync _ _ H))].
Qed.

(** ** Debouncing *)

Lemma ulong_add_add (a b c : Z) :
  ulong_add (ulong_add a b) c = to_ulong (a + (b + c)).
Proof.
  unfold ulong_add, to_ulong.
  rewrite Zplus_mod_idemp_l; f_equal; lia.
Qed.

Lemma debounceMotion_result (s : State) (w : World) :
  debounceMotion s w =
  mkResult (2 <=? pirHighs w)%nat s
    (mkWorld (to_ulong (clock w + 198)) (ledLevel w) (pirLine w)
       (S (S (S (pirSamples w)))) (ldrLine w) (ldrSamples w))
    [EvDigitalRead PIR_PIN (of_bool (pirLine w (pirSamples w)));
     EvDelay 66;
     EvDigitalRead PIR_PIN (of_bool (pirLine w (S (pirSamples w))));
     EvDelay 66;
     EvDigitalRead PIR_PIN (of_bool (pirLine w (S (S (pirSamples w)))));
     EvDelay 66].
Proof.
  assert (Hclock : ulong_add (ulong_add (ulong_add (clock w) 66) 66) 66
                   = to_ulong (clock w + 198)).
  { rewrite ulong_add_add; unfold ulong_add, to_ulong.
    rewrite Zplus_mod_idemp_l; f_equal; lia. }
  unfold debounceMotion, pirHighs.
  change (Z.to_nat DEBOUNCE_READS) with 3%nat.
  cbv [debounceReads bind ret digitalRead delay].
  change (PIR_PIN =? LED_PIN) with false; change (PIR_PIN =? PIR_PIN) with true.
  cbv iota; cbn [pirLine pirSamples clock ledLevel ldrLine ldrSamples app].
  change (int_div DEBOUNCE_TIME DEBOUNCE_READS) with 66.
  rewrite Hclock.
  destruct (pirLine w (pirSamples w)), (pirLine w (S (pirSamples w))),
    (pirLine w (S (S (pirSamples w)))); reflexivity.
Qed.

Lemma debounced_majority (w : World) : debounced w = (2 <=? pirHighs w)%nat.
Proof. unfold debounced; rewrite debounceMotion_result; reflexivity. Qed.

Lemma afterDebounce_board (w : World) :
  afterDebounce w =
  mkWorld (to_ulong (clock w + 198)) (ledLevel w) (pirLine w)
    (S (S (S (pirSamples w)))) (ldrLine w) (ldrSamples w).
Proof. unfold afterDebounce; rewrite debounceMotion_result; reflexivity. Qed.

Lemma debounceEvents_counts (w : World) :
  count isPirRead (debounceEvents w) = 3%nat
  /\ count isDelay (debounceEvents w) = 3%nat
  /\ count isPrint (debounceEvents w) = 0%nat.
Proof.
  unfold debounceEvents; rewrite debounceMotion_result.
  repeat split.
Qed.

(** X1: [debounceMotion] takes the next three samples of the PIR line, 66 ms
    apart, and returns their majority: true exactly when at least two of
    them are high.  It blocks for 198 ms in all, changes no global, takes
    no conversion and writes no pin. *)
Theorem debounce_majority (s : State) (w : World) :
  let r := debounceMotion s w in
  value r = (2 <=? pirHighs w)%nat
  /\ vars r = s
  /\ env r = mkWorld (to_ulong (clock w + 198)) (ledLevel w) (pirLine w)
               (S (S (S (pirSamples w)))) (ldrLine w) (ldrSamples w)
  /\ events r
     = [EvDigitalRead PIR_PIN (of_bool (pirLine w (pirSamples w)));
        EvDelay 66;
        EvDigitalRead PIR_PIN (of_bool (pirLine w (S (pirSamples w))));
        EvDelay 66;
        EvDigitalRead PIR_PIN (of_bool (pirLine w (S (S (pirSamples w)))));
        EvDelay 66].
Proof. cbv zeta; rewrite debounceMotion_result; repeat split. Qed.

(** ** What [checkMotion] does to the board *)

Lemma throttledPrint_out (t : Z) (m : Msg) (s : State) (w : World) :
  env (throttledPrint t m s w) = w
  /\ (events (throttledPrint t m s w) = []
      \/ events (throttledPrint t m s w) = [EvPrint m]).
Proof.
  unfold throttledPrint; run.
  destruct (to_ulong 1000 <? _); split; auto.
Qed.

Lemma checkMotion_out (s : State) (w : World) :
  let start := guardedStart (motionStartTime s) (clock w) in
  let due := debounceDue (motionDetected s) (ulong_sub (clock w) start) in
  env (checkMotion s w) = (if due then afterDebounce w else w)
  /\ exists p,
       events (checkMotion s w) = (if due then debounceEvents w else []) ++ p
       /\ (p = [] \/ exists m, p = [EvPrint m]).
Proof.
  cbv zeta; unfold checkMotion, debounceDue, inCheckWindow, guardedStart; run.
  destruct (clock w <? motionStartTime s);
    cbn [motionDetected motionStartTime set_motionStartTime];
    destruct (motionDetected s) eqn:Hd; cbn [negb andb orb].
  all: repeat match goal with
         | |- context [if (?a <=? ?b) then _ else _] => destruct (a <=? b)
         | |- context [if (?a <? ?b) then _ else _] => destruct (a <? b)
         end;
    try rewrite debounceMotion_state; cbv iota beta;
    try destruct (debounced w); cbv iota beta;
    try match goal with
      | |- context [throttledPrint ?t ?m ?s0 ?w0] =>
          destruct (throttledPrint_out t m s0 w0) as [Hp1 Hp2];
          destruct (throttledPrint t m s0 w0) as [u1 s1 w1 e1];
          cbn [env events] in Hp1, Hp2; cbv iota beta; subst w1;
          (split; [reflexivity |]); exists e1;
          rewrite ?app_nil_l, ?app_nil_r; cbn [app];
          (split; [reflexivity |]);
          destruct Hp2 as [-> | ->]; [left; reflexivity | right; eexists; reflexivity]
      end;
    try (split; [reflexivity |]; exists []; rewrite ?app_nil_r;
         split; [reflexivity | left; reflexivity]).
Qed.

(** X2: While idle, every call of [checkMotion] samples the PIR line (and so
    blocks for 198 ms); it starts a cycle, stamped with the timestamp read
    at the start of the call, exactly when at least two of the three
    samples are high. *)
Theorem motion_detection_when_idle (s : State) (w : World) :
  motionDetected s = false ->
  let r := checkMotion s w in
  motionDetected (vars r) = (2 <=? pirHighs w)%nat
  /\ ((2 <= pirHighs w)%nat -> motionStartTime (vars r) = clock w)
  /\ clock (env r) = to_ulong (clock w + 198)
  /\ pirSamples (env r) = S (S (S (pirSamples w)))
  /\ count isPirRead (events r) = 3%nat.
Proof.
  intros Hidle; cbv zeta.
  rewrite checkMotion_detected, checkMotion_start, Hidle.
  destruct (checkMotion_out s w) as [Henv [p [Hev Hp]]].
  rewrite Hidle in Henv, Hev; cbv zeta in Henv, Hev.
  unfold debounceDue in *; cbn [negb orb] in *.
  rewrite Henv, Hev, afterDebounce_board, debounced_majority.
  unfold motionStep; cbn [negb andb].
  split; [destruct (2 <=? pirHighs w)%nat; reflexivity |].
  split.
  { intros H; apply Nat.leb_le in H; rewrite H; reflexivity. }
  split; [reflexivity | split; [reflexivity |]].
  rewrite count_app; destruct (debounceEvents_counts w) as [Hc _]; rewrite Hc.
  destruct Hp as [-> | [m ->]]; reflexivity.
Qed.

Lemma motion_detection_when_idle_witness :
  motionDetected initState = false
  /\ motionDetected (vars (checkMotion initState (steadyBoard 0 true 0)))
     = true.
Proof.
  split; [reflexivity |].
  pose proof (motion_detection_when_idle initState (steadyBoard 0 true 0)
                eq_refl) as H; cbv zeta in H.
  destruct H as [H _]; rewrite H; reflexivity.
Defined.

(** X3: In a cycle that is between [CHECK_TIME] and [TIMEOUT] old (no rollover),
    [checkMotion] samples the PIR line; with a majority of high samples the
    cycle is extended (the stamp moves to the current timestamp), otherwise
    the cycle goes on unchanged.  Either way it stays active. *)
Theorem motion_extension (s : State) (w : World) :
  motionDetected s = true ->
  is_ulong (motionStartTime s) -> is_ulong (clock w) ->
  motionStartTime s <= clock w ->
  CHECK_TIME <= clock w - motionStartTime s < TIMEOUT ->
  let r := checkMotion s w in
  motionDetected (vars r) = true
  /\ motionStartTime (vars r)
     = (if (2 <=? pirHighs w)%nat then clock w else motionStartTime s)
  /\ pirSamples (env r) = S (S (S (pirSamples w))).
Proof.
  intros Hact Hs Hw Hle [Hlo Hhi]; cbv zeta.
  rewrite checkMotion_detected, checkMotion_start, Hact.
  destruct (checkMotion_out s w) as [Henv _]; rewrite Hact in Henv.
  cbv zeta in Henv; rewrite Henv; clear Henv.
  unfold guardedStart.
  replace (clock w <? motionStartTime s) with false
    by (symmetry; apply Z.ltb_ge; exact Hle).
  rewrite (ulong_sub_exact _ _ Hw Hs Hle).
  unfold motionStep, debounceDue, inCheckWindow; cbn [negb andb orb].
  rewrite (ulong_sub_exact _ _ Hw Hs Hle).
  change (to_ulong TIMEOUT) with TIMEOUT.
  change (to_ulong CHECK_TIME) with CHECK_TIME.
  replace (CHECK_TIME <=? clock w - motionStartTime s) with true
    by (symmetry; apply Z.leb_le; exact Hlo).
  replace (clock w - motionStartTime s <? TIMEOUT) with true
    by (symmetry; apply Z.ltb_lt; exact Hhi).
  replace (TIMEOUT <=? clock w - motionStartTime s) with false
    by (symmetry; apply Z.leb_gt; exact Hhi).
  cbn [andb]; rewrite afterDebounce_board, debounced_majority.
  destruct (2 <=? pirHighs w)%nat; repeat split.
Qed.

Lemma motion_extension_witness :
  motionDetected (inCycle 1000) = true
  /\ is_ulong (motionStartTime (inCycle 1000))
  /\ is_ulong (clock (steadyBoard 5500 true 0))
  /\ motionStartTime (inCycle 1000) <= clock (steadyBoard 5500 true 0)
  /\ CHECK_TIME
     <= clock (steadyBoard 5500 true 0) - motionStartTime (inCycle 1000)
     < TIMEOUT
  /\ motionStartTime
       (vars (checkMotion (inCycle 1000) (steadyBoard 5500 true 0))) = 5500.
Proof.
  assert (H1 : motionDetected (inCycle 1000) = true) by reflexivity.
  assert (H2 : is_ulong (motionStartTime (inCycle 1000)))
    by (unfold is_ulong, ulong_modulus; cbn; lia).
  assert (H3 : is_ulong (clock (steadyBoard 5500 true 0)))
    by (unfold is_ulong, ulong_modulus; cbn; lia).
  assert (H4 : motionStartTime (inCycle 1000)
               <= clock (steadyBoard 5500 true 0)) by (cbn; lia).
  assert (H5 : CHECK_TIME
               <= clock (steadyBoard 5500 true 0)
                  - motionStartTime (inCycle 1000) < TIMEOUT)
    by (unfold CHECK_TIME, TIMEOUT; cbn; lia).
  repeat (split; [assumption |]).
  pose proof (motion_extension (inCycle 1000) (steadyBoard 5500 true 0)
                H1 H2 H3 H4 H5) as H; cbv zeta in H.
  destruct H as [_ [H _]]; rewrite H; reflexivity.
Defined.

(** X4: Outside the checkpoint window an active cycle costs nothing: while the
    cycle is less than [CHECK_TIME] old, or has reached [TIMEOUT],
    [checkMotion] does not sample the PIR line and does not pause; the
    board is left as it was. *)
Theorem no_debounce_outside_window (s : State) (w : World) :
  motionDetected s = true ->
  is_ulong (motionStartTime s) -> is_ulong (clock w) ->
  motionStartTime s <= clock w ->
  clock w - motionStartTime s < CHECK_TIME
  \/ TIMEOUT <= clock w - motionStartTime s ->
  let r := checkMotion s w in
  env r = w
  /\ count isPirRead (events r) = 0%nat
  /\ count isDelay (events r) = 0%nat.
Proof.
  intros Hact Hs Hw Hle Hout; cbv zeta.
  destruct (checkMotion_out s w) as [Henv [p [Hev Hp]]].
  rewrite Hact in Henv, Hev; cbv zeta in Henv, Hev.
  unfold guardedStart in Henv, Hev.
  replace (clock w <? motionStartTime s) with false in Henv, Hev
    by (symmetry; apply Z.ltb_ge; exact Hle).
  rewrite (ulong_sub_exact _ _ Hw Hs Hle) in Henv, Hev.
  assert (Hwin : inCheckWindow (clock w - motionStartTime s) = false).
  { unfold inCheckWindow.
    change (to_ulong TIMEOUT) with TIMEOUT.
    change (to_ulong CHECK_TIME) with CHECK_TIME.
    apply andb_false_iff; destruct Hout as [H | H];
      [left; apply Z.leb_gt | right; apply Z.ltb_ge]; exact H. }
  unfold debounceDue in Henv, Hev; rewrite Hwin in Henv, Hev.
  cbn [negb andb orb] in Henv, Hev.
  rewrite Henv, Hev; cbn [app].
  split; [reflexivity |].
  destruct Hp as [-> | [m ->]]; split; reflexivity.
Qed.

Lemma no_debounce_outside_window_witness :
  motionDetected (inCycle 1000) = true
  /\ is_ulong (motionStartTime (inCycle 1000))
  /\ is_ulong (clock (steadyBoard 2000 true 0))
  /\ motionStartTime (inCycle 1000) <= clock (steadyBoard 2000 true 0)
  /\ (clock (steadyBoard 2000 true 0) - motionStartTime (inCycle 1000)
      < CHECK_TIME
      \/ TIMEOUT
         <= clock (steadyBoard 2000 true 0) - motionStartTime (inCycle 1000))
  /\ env (checkMotion (inCycle 1000) (steadyBoard 2000 true 0))
     = steadyBoard 2000 true 0.
Proof.
  assert (H1 : motionDetected (inCycle 1000) = true) by reflexivity.
  assert (H2 : is_ulong (motionStartTime (inCycle 1000)))
    by (unfold is_ulong, ulong_modulus; cbn; lia).
  assert (H3 : is_ulong (clock (steadyBoard 2000 true 0)))
    by (unfold is_ulong, ulong_modulus; cbn; lia).
  assert (H4 : motionStartTime (inCycle 1000)
               <= clock (steadyBoard 2000 true 0)) by (cbn; lia).
  assert (H5 : clock (steadyBoard 2000 true 0)
               - motionStartTime (inCycle 1000) < CHECK_TIME
               \/ TIMEOUT
                  <= clock (steadyBoard 2000 true 0)
                     - motionStartTime (inCycle 1000))
    by (left; unfold CHECK_TIME; cbn; lia).
  repeat (split; [assumption |]).
  apply (no_debounce_outside_window (inCycle 1000) (steadyBoard 2000 true 0)
           H1 H2 H3 H4 H5).
Defined.

(** ** The classifier, exactly *)

(** X6: The two thresholds are inclusive: a light classifier turns dark exactly
    when the new average is at most [ldrThreshold - hysteresis], a dark one
    stays dark exactly while it is below [ldrThreshold + hysteresis]. *)
Theorem schmitt_trigger_exact (s : State) (w : World) :
  thresholdInRange s ->
  let s' := vars (checkLight s w) in
  (isDark s = false ->
   (isDark s' = true <-> ldrAverage s' <= ldrThreshold s - hysteresis))
  /\ (isDark s = true ->
      (isDark s' = true <-> ldrAverage s' < ldrThreshold s + hysteresis)).
Proof.
  intros Hthr; cbv zeta.
  rewrite (checkLight_isDark s w).
  unfold thresholdInRange, int_min, int_max, hysteresis in Hthr.
  unfold classify, int_add, int_sub, hysteresis.
  rewrite !to_int_id by (unfold is_int, int_min, int_max; lia).
  split; intros Hd; rewrite Hd.
  - apply Z.leb_le.
  - rewrite negb_true_iff, Z.leb_gt; reflexivity.
Qed.

Lemma schmitt_trigger_exact_witness :
  thresholdInRange calibratedDark
  /\ isDark (vars (checkLight calibratedDark (steadyBoard 0 false 150)))
     = false.
Proof.
  assert (H : thresholdInRange calibratedDark)
    by (unfold thresholdInRange; cbn; lia).
  split; [exact H |].
  pose proof (schmitt_trigger_exact calibratedDark (steadyBoard 0 false 150) H)
    as Hthm; cbv zeta in Hthm.
  destruct Hthm as [_ Hdark].
  apply not_true_is_false; intros E.
  apply (Hdark eq_refl) in E; vm_compute in E; discriminate E.
Defined.

(** ** The cadence of the light check *)

(** X13: An iteration takes one conversion when its light check is due and none
    otherwise.  When the check runs, [lastLdrCheck] is set to the
    iteration's timestamp; when it does not, the classifier and its cadence
    are left alone; and the check is never due less than
    [currentLdrInterval] after the last one. *)
Theorem light_check_cadence (s : State) (w : World) :
  analogReads (events (loop s w))
  = (if lightCheckDue s (clock w) then 1%nat else 0%nat)
  /\ (lightCheckDue s (clock w) = true ->
      lastLdrCheck (vars (loop s w)) = clock w)
  /\ (lightCheckDue s (clock w) = false ->
      lightVars (vars (loop s w)) = lightVars s)
  /\ (ulong_sub (clock w) (lastLdrCheck s) < to_ulong (currentLdrInterval s) ->
      lightCheckDue s (clock w) = false).
Proof.
  split; [apply loop_analogReads |].
  destruct (loop_blocks s w) as [Hv _].
  split; [| split].
  - intros Hdue; rewrite Hv.
    rewrite (keeps_runWatchdog lastLdrCheck) by reflexivity.
    rewrite (keeps_motionBlock lastLdrCheck) by reflexivity.
    destruct (lightBlock_runs s w _ Hdue) as [Hv1 _]; rewrite Hv1.
    rewrite (keeps_adaptInterval lastLdrCheck) by reflexivity.
    rewrite (keeps_checkLight lastLdrCheck) by reflexivity.
    reflexivity.
  - intros Hdue; rewrite Hv.
    rewrite (keeps_runWatchdog lightVars) by reflexivity.
    rewrite (keeps_motionBlock lightVars) by reflexivity.
    rewrite (lightBlock_idle s w _ Hdue); reflexivity.
  - intros Hlt; unfold lightCheckDue.
    apply andb_false_iff; right; apply Z.leb_gt; exact Hlt.
Qed.

(** ** How long an iteration takes *)

Lemma clock_lightBlock (t : Z) : keepsEnv clock (lightBlock t).
Proof.
  unfold lightBlock; env_all.
  - intros s w; rewrite checkLight_env; reflexivity.
  - unfold adaptInterval; env_all.
Qed.

Lemma clock_updateLeds (t : Z) : keepsEnv clock (updateLeds t).
Proof. unfold updateLeds; env_all. Qed.

Lemma clock_runWatchdog : keepsEnv clock runWatchdog.
Proof. unfold runWatchdog; env_all. Qed.

Lemma motionBlock_clock (t : Z) (s : State) (w : World) :
  clock (env (motionBlock t s w))
  = if motionSampled s (clock w) then to_ulong (clock w + 198) else clock w.
Proof.
  unfold motionSampled; destruct (isDark s) eqn:Hd; cbn [andb].
  - destruct (motionBlock_runs t s w Hd) as [_ [He _]]; rewrite He.
    rewrite clock_updateLeds.
    destruct (checkMotion_out s w) as [Henv _]; cbv zeta in Henv.
    rewrite Henv; destruct (debounceDue _ _); [| reflexivity].
    rewrite afterDebounce_board; reflexivity.
  - rewrite (motionBlock_skipped t s w Hd); reflexivity.
Qed.

(** X14: An iteration advances the millisecond clock by its pauses: 300 ms, or
    498 ms when its motion block samples the PIR line (the three debounce
    pauses of 66 ms come first). *)
Theorem loop_duration (s : State) (w : World) :
  let s1 := vars (lightBlock (clock w) s w) in
  clock (env (loop s w))
  = to_ulong
      (clock w + (if motionSampled s1 (clock w) then 498 else 300)).
Proof.
  cbv zeta; destruct (loop_blocks s w) as [_ [He _]]; rewrite He.
  pose proof (clock_lightBlock (clock w) s w) as H1.
  revert H1; generalize (lightBlock (clock w) s w); intros r1 H1.
  pose proof (motionBlock_clock (clock w) (vars r1) (env r1)) as H2.
  rewrite H1 in H2.
  revert H2; generalize (motionBlock (clock w) (vars r1) (env r1)).
  intros r2 H2.
  pose proof (clock_runWatchdog (vars r2) (env r2)) as H3.
  revert H3; generalize (runWatchdog (vars r2) (env r2)); intros r3 H3.
  cbn [delay env clock]; rewrite H3, H2.
  destruct (motionSampled (vars r1) (clock w)).
  - unfold ulong_add, to_ulong; rewrite Zplus_mod_idemp_l; f_equal; lia.
  - reflexivity.
Qed.

(** ** The switch-on stamp *)

Lemma lightBlock_leds_only_off (s : State) (w : World) (t : Z) :
  ledsEnabled s = false -> ledsEnabled (vars (lightBlock t s w)) = false.
Proof.
  intros Hoff; destruct (lightCheckDue s t) eqn:Hdue.
  - destruct (lightBlock_runs s w t Hdue) as [Hv _]; rewrite Hv.
    assert (H1 : ledsEnabled (vars (checkLight (set_lastLdrCheck t s) w))
                 = false)
      by (rewrite (keeps_checkLight ledsEnabled) by reflexivity; exact Hoff).
    revert H1; generalize (checkLight (set_lastLdrCheck t s) w); intros r1 H1.
    destruct (isDark (vars r1)) eqn:Hd.
    + rewrite (adaptInterval_dark_leds _ _ Hd); exact H1.
    + apply adaptInterval_light; exact Hd.
  - rewrite (lightBlock_idle s w t Hdue); exact Hoff.
Qed.

Lemma updateLeds_stamp (t : Z) (s : State) (w : World) :
  ledOnTime (vars (updateLeds t s w))
  = if negb (ledsEnabled s) && motionDetected s then t else ledOnTime s.
Proof.
  destruct (bool_dec (ledsEnabled s) (motionDetected s)) as [Heq | Hne].
  - rewrite (updateLeds_same t s w Heq), Heq.
    destruct (motionDetected s); reflexivity.
  - rewrite (updateLeds_change t s w Hne).
    destruct (ledsEnabled s), (motionDetected s);
      try (exfalso; apply Hne; reflexivity); reflexivity.
Qed.

(** ** The status messages of [checkMotion] *)

Lemma throttledPrint_cases (t : Z) (m : Msg) (s : State) (w : World) :
  ((to_ulong 1000 <? ulong_sub t (lastSerialTime s)) = true
   /\ throttledPrint t m s w
      = mkResult tt (set_lastSerialTime t s) w [EvPrint m])
  \/ ((to_ulong 1000 <? ulong_sub t (lastSerialTime s)) = false
      /\ throttledPrint t m s w = mkResult tt s w []).
Proof.
  unfold throttledPrint; run.
  destruct (to_ulong 1000 <? _); [left | right]; split; reflexivity.
Qed.

Lemma checkMotion_prints (s : State) (w : World) :
  (count isPrint (events (checkMotion s w)) = 0%nat
   /\ lastSerialTime (vars (checkMotion s w)) = lastSerialTime s)
  \/ (count isPrint (events (checkMotion s w)) = 1%nat
      /\ lastSerialTime (vars (checkMotion s w)) = clock w
      /\ (to_ulong 1000 <? ulong_sub (clock w) (lastSerialTime s)) = true).
Proof.
  pose proof (proj2 (proj2 (debounceEvents_counts w))) as Hquiet.
  unfold checkMotion; run.
  destruct (clock w <? motionStartTime s);
    cbn [motionDetected motionStartTime set_motionStartTime];
    destruct (motionDetected s) eqn:Hd; cbn [negb andb orb].
  all: repeat match goal with
         | |- context [if (?a <=? ?b) then _ else _] => destruct (a <=? b)
         | |- context [if (?a <? ?b) then _ else _] => destruct (a <? b)
         end;
    try rewrite debounceMotion_state; cbv iota beta;
    try destruct (debounced w); cbv iota beta;
    try match goal with
      | |- context [throttledPrint ?t ?m ?s0 ?w0] =>
          destruct (throttledPrint_cases t m s0 w0) as [[Hc ->] | [Hc ->]];
          cbn [lastSerialTime set_motionStartTime set_motionDetected] in Hc;
          cbv iota beta
      end;
    rewrite ?app_nil_l, ?app_nil_r, ?count_app, ?Hquiet;
    cbn [lastSerialTime set_lastSerialTime set_motionStartTime
         set_motionDetected count filter isPrint length Nat.add];
    first [ left; split; reflexivity
          | right; split; [reflexivity | split; [reflexivity | exact Hc]] ].
Qed.

(** X5: [checkMotion] prints at most one status line per call, and none
    unless more than 1000 ms have passed since [lastSerialTime]; a call that
    prints leaves the current timestamp in [lastSerialTime], a call that
    does not print leaves [lastSerialTime] as it was. *)
Theorem status_messages_throttled (s : State) (w : World) :
  let r := checkMotion s w in
  (count isPrint (events r) <= 1)%nat
  /\ (count isPrint (events r) = 0%nat ->
      lastSerialTime (vars r) = lastSerialTime s)
  /\ (count isPrint (events r) = 1%nat ->
      lastSerialTime (vars r) = clock w
      /\ 1000 < ulong_sub (clock w) (lastSerialTime s))
  /\ (ulong_sub (clock w) (lastSerialTime s) <= 1000 ->
      count isPrint (events r) = 0%nat).
Proof.
  cbv zeta.
  destruct (checkMotion_prints s w) as [[H0 Hl] | [H1 [Hl Hc]]].
  - rewrite H0; split; [lia |].
    split; [intros _; exact Hl |].
    split; [discriminate | reflexivity].
  - change (to_ulong 1000) with 1000 in Hc; apply Z.ltb_lt in Hc.
    rewrite H1; split; [lia |].
    split; [discriminate |].
    split; [intros _; split; [exact Hl | exact Hc] |].
    intros Hle; lia.
Qed.

(** ** The state [setup] leaves *)

Lemma setup_clock (w : World) :
  clock (env (setup initState w)) = ulong_add (clock w) 3000.
Proof.
  assert (Hfill : forall n i, keepsEnv clock (fillReadings n i)).
  { induction n as [| n IH]; intros i; cbn [fillReadings]; env_all.
    - intros s0 w0; reflexivity.
    - apply IH. }
  pose proof (Hfill 3%nat 0 initState
                (mkWorld (clock w) false (pirLine w) (pirSamples w)
                   (ldrLine w) (ldrSamples w))) as H1.
  cbn [clock] in H1.
  unfold setup, calibrateLDR; run.
  cbv [digitalWrite LED_PIN LOW Z.eqb Pos.eqb negb].
  change (Z.to_nat numReadings) with 3%nat.
  revert H1; generalize (fillReadings 3 0 initState
                           (mkWorld (clock w) false (pirLine w) (pirSamples w)
                              (ldrLine w) (ldrSamples w))).
  intros [u1 s1 w1 e1] H1; cbn [env] in H1.
  pose proof (checkLight_env (set_ldrThreshold 30 s1) w1) as H2.
  revert H2; generalize (checkLight (set_ldrThreshold 30 s1) w1).
  intros [u2 s2 w2 e2] H2; cbn [env] in H2.
  cbn [clock]; rewrite H2; cbn [clock]; rewrite H1; reflexivity.
Qed.

Lemma setup_isDark (w : World) :
  isDark (vars (setup initState w))
  = (ldrAverage (vars (setup initState w)) <=? 10).
Proof.
  destruct (setup_steps w) as [Hv _]; rewrite Hv; clear Hv.
  assert (H1 : forall w1, isDark (vars (fillReadings 3 0 initState w1)) = false)
    by (intros w1; apply (keeps_fillReadings isDark); reflexivity).
  specialize (H1 (mkWorld (clock w) false (pirLine w) (pirSamples w)
                    (ldrLine w) (ldrSamples w))).
  revert H1; generalize (fillReadings 3 0 initState
                           (mkWorld (clock w) false (pirLine w) (pirSamples w)
                              (ldrLine w) (ldrSamples w))).
  intros r1 H1.
  rewrite checkLight_isDark.
  cbn [ldrThreshold isDark set_ldrThreshold]; rewrite H1.
  reflexivity.
Qed.

(** X7: [setup] fixes the threshold at 30 and makes the first classification:
    the sketch starts dark exactly when the mean of the last three of its
    first four conversions is at most 10.  It leaves the LEDs disabled and
    the pin low, no motion cycle, the fast interval with a zero counter,
    and has paused for 3000 ms. *)
Theorem setup_postcondition (w : World) :
  adcLine w ->
  let r := setup initState w in
  ldrThreshold (vars r) = 30
  /\ isDark (vars r) = (lastThreeMean (env r) <=? 10)
  /\ ledsEnabled (vars r) = false /\ ledLevel (env r) = false
  /\ motionDetected (vars r) = false
  /\ consecutiveLightReadings (vars r) = 0
  /\ currentLdrInterval (vars r) = LDR_FAST_INTERVAL
  /\ ldrSamples (env r) = (ldrSamples w + 4)%nat
  /\ clock (env r) = to_ulong (clock w + 3000).
Proof.
  intros Hadc; cbv zeta.
  destruct (setup_window w Hadc) as [_ [Havg [Hn _]]].
  split.
  { destruct (setup_steps w) as [Hv _]; rewrite Hv.
    rewrite checkLight_threshold; reflexivity. }
  split; [rewrite setup_isDark, Havg; reflexivity |].
  split; [apply (keeps_setup ledsEnabled); reflexivity |].
  split.
  { rewrite (setup_sync w).
    apply (keeps_setup ledsEnabled); reflexivity. }
  split; [apply (keeps_setup motionDetected); reflexivity |].
  split; [apply (keeps_setup consecutiveLightReadings); reflexivity |].
  split; [apply (keeps_setup currentLdrInterval); reflexivity |].
  split; [exact Hn | apply setup_clock].
Qed.

Lemma setup_postcondition_witness :
  adcLine brightThenDark
  /\ isDark (vars (setup initState brightThenDark)) = false.
Proof.
  assert (H : adcLine brightThenDark).
  { intro k; unfold adc, brightThenDark; cbn [ldrLine].
    destruct (k <? 3)%nat; lia. }
  split; [exact H |].
  pose proof (setup_postcondition brightThenDark H) as Hm.
  cbv zeta in Hm; destruct Hm as [_ [Hd _]].
  rewrite Hd; vm_compute; reflexivity.
Defined.

(** ** From the sensors to the LEDs, in one iteration *)

Lemma pirSide_lightBlock (t : Z) : keepsEnv pirSide (lightBlock t).
Proof.
  unfold lightBlock; env_all.
  - intros s w; rewrite checkLight_env; reflexivity.
  - unfold adaptInterval; env_all.
Qed.

(** A light block that ends dark leaves the motion cycle and the LED state
    as they were. *)
Lemma lightBlock_dark_frame (s : State) (w : World) (t : Z) :
  isDark (vars (lightBlock t s w)) = true ->
  ledsEnabled (vars (lightBlock t s w)) = ledsEnabled s
  /\ motionDetected (vars (lightBlock t s w)) = motionDetected s
  /\ motionStartTime (vars (lightBlock t s w)) = motionStartTime s
  /\ ledLevel (env (lightBlock t s w)) = ledLevel w.
Proof.
  destruct (lightCheckDue s t) eqn:Hdue.
  - destruct (lightBlock_runs s w t Hdue) as [Hv [He _]]; rewrite Hv, He.
    rewrite (keeps_adaptInterval isDark) by reflexivity.
    rewrite (keeps_adaptInterval motionDetected) by reflexivity.
    rewrite (keeps_adaptInterval motionStartTime) by reflexivity.
    assert (H1 : ledsEnabled (vars (checkLight (set_lastLdrCheck t s) w))
                 = ledsEnabled s)
      by (rewrite (keeps_checkLight ledsEnabled) by reflexivity; reflexivity).
    assert (H2 : motionDetected (vars (checkLight (set_lastLdrCheck t s) w))
                 = motionDetected s)
      by (rewrite (keeps_checkLight motionDetected) by reflexivity;
          reflexivity).
    assert (H3 : motionStartTime (vars (checkLight (set_lastLdrCheck t s) w))
                 = motionStartTime s)
      by (rewrite (keeps_checkLight motionStartTime) by reflexivity;
          reflexivity).
    pose proof (ledLevel_checkLight (set_lastLdrCheck t s) w) as H4.
    revert H1 H2 H3 H4; generalize (checkLight (set_lastLdrCheck t s) w).
    intros r1 H1 H2 H3 H4 Hd.
    rewrite (adaptInterval_dark_leds _ _ Hd), H1, H2, H3.
    repeat split.
    rewrite <- H4; clear - Hd.
    destruct r1 as [u1 s1 w1 e1]; cbn [vars env] in *.
    unfold adaptInterval; run; rewrite Hd.
    cbn [currentLdrInterval set_consecutiveLightReadings].
    destruct (currentLdrInterval s1 =? LDR_SLOW_INTERVAL); reflexivity.
  - rewrite (lightBlock_idle s w t Hdue); auto.
Qed.

(** The end of an iteration whose motion block has run. *)
Lemma loop_after_motion (s : State) (w : World) :
  isDark (vars (lightBlock (clock w) s w)) = true ->
  let r1 := lightBlock (clock w) s w in
  let r2 := checkMotion (vars r1) (env r1) in
  let r3 := updateLeds (clock w) (vars r2) (env r2) in
  pinInSync (vars r3) (env r3) ->
  ledsEnabled (vars (loop s w)) = ledsEnabled (vars r3)
  /\ motionDetected (vars (loop s w)) = motionDetected (vars r3)
  /\ motionStartTime (vars (loop s w)) = motionStartTime (vars r3)
  /\ ledOnTime (vars (loop s w)) = ledOnTime (vars r3)
  /\ ledLevel (env (loop s w)) = ledLevel (env r3).
Proof.
  intros Hd; cbv zeta.
  destruct (loop_blocks s w) as [Hv [He _]]; rewrite Hv, He; clear Hv He.
  revert Hd; generalize (lightBlock (clock w) s w); intros r1 Hd.
  destruct (motionBlock_runs (clock w) (vars r1) (env r1) Hd) as [Hv [He _]].
  rewrite Hv, He; clear Hv He.
  generalize (updateLeds (clock w) (vars (checkMotion (vars r1) (env r1)))
                (env (checkMotion (vars r1) (env r1)))).
  intros r3 Hsync.
  destruct (runWatchdog_in_sync _ _ Hsync) as [_ [He3 _]].
  rewrite (keeps_runWatchdog ledsEnabled), (keeps_runWatchdog motionDetected),
    (keeps_runWatchdog motionStartTime), (keeps_runWatchdog ledOnTime)
    by reflexivity.
  cbn [delay env ledLevel]; rewrite He3; repeat split.
Qed.

(** X16: Motion in the dark switches the LEDs on: in an iteration whose light
    block ends dark, that starts idle with the LEDs disabled, and that sees
    at least two of the next three PIR samples high, the LEDs are enabled,
    the LED pin is driven high, a motion cycle has started, and both stamps
    are the timestamps read in this iteration. *)
Theorem motion_switches_leds_on (s : State) (w : World) :
  isDark (vars (lightBlock (clock w) s w)) = true ->
  ledsEnabled s = false -> motionDetected s = false ->
  (2 <= pirHighs w)%nat ->
  ledsEnabled (vars (loop s w)) = true
  /\ ledLevel (env (loop s w)) = true
  /\ motionDetected (vars (loop s w)) = true
  /\ motionStartTime (vars (loop s w)) = clock w
  /\ ledOnTime (vars (loop s w)) = clock w.
Proof.
  intros Hd Hoff Hidle Hpir.
  pose proof (loop_after_motion s w Hd) as Hend; cbv zeta in Hend.
  destruct (lightBlock_dark_frame s w (clock w) Hd) as [Hen [Hmd [_ _]]].
  pose proof (pirSide_lightBlock (clock w) s w) as Hside.
  rewrite Hoff in Hen; rewrite Hidle in Hmd.
  revert Hend Hen Hmd Hside; generalize (lightBlock (clock w) s w).
  intros r1 Hend Hen Hmd Hside.
  unfold pirSide in Hside; injection Hside as Hl Hn Hc.
  assert (Hhighs : pirHighs (env r1) = pirHighs w)
    by (unfold pirHighs; rewrite Hl, Hn; reflexivity).
  assert (Hdet : debounced (env r1) = true).
  { rewrite debounced_majority, Hhighs; apply Nat.leb_le; exact Hpir. }
  destruct (checkMotion_starts_cycle (vars r1) (env r1) Hmd Hdet)
    as [Hon Hstart].
  assert (Hen2 : ledsEnabled (vars (checkMotion (vars r1) (env r1))) = false)
    by (rewrite (keeps_checkMotion ledsEnabled) by reflexivity; exact Hen).
  rewrite Hc in Hstart.
  revert Hend Hon Hstart Hen2; generalize (checkMotion (vars r1) (env r1)).
  intros r2 Hend Hon Hstart Hen2.
  assert (Hne : ledsEnabled (vars r2) <> motionDetected (vars r2))
    by (rewrite Hen2, Hon; discriminate).
  rewrite (updateLeds_change _ _ _ Hne), Hon in Hend.
  cbn [vars env] in Hend.
  destruct (Hend eq_refl) as [H1 [H2 [H3 [H4 H5]]]].
  rewrite H1, H2, H3, H4, H5.
  cbn [ledsEnabled motionDetected motionStartTime ledOnTime ledLevel
       set_ledOnTime set_ledsEnabled].
  rewrite Hon, Hstart; repeat split.
Qed.

Lemma motion_switches_leds_on_witness :
  isDark (vars (lightBlock 10000 bootDark (steadyBoard 10000 true 0))) = true
  /\ ledsEnabled bootDark = false /\ motionDetected bootDark = false
  /\ (2 <= pirHighs (steadyBoard 10000 true 0))%nat
  /\ ledsEnabled (vars (loop bootDark (steadyBoard 10000 true 0))) = true.
Proof.
  assert (H1 : isDark (vars (lightBlock (clock (steadyBoard 10000 true 0))
                               bootDark (steadyBoard 10000 true 0))) = true)
    by (vm_compute; reflexivity).
  assert (H2 : ledsEnabled bootDark = false) by (vm_compute; reflexivity).
  assert (H3 : motionDetected bootDark = false) by (vm_compute; reflexivity).
  assert (H4 : (2 <= pirHighs (steadyBoard 10000 true 0))%nat)
    by (vm_compute; lia).
  split; [exact H1 | split; [exact H2 | split; [exact H3 | split;
    [exact H4 |]]]].
  apply (motion_switches_leds_on bootDark (steadyBoard 10000 true 0)
           H1 H2 H3 H4).
Defined.

(** X17: The timeout switches the LEDs off: in an iteration whose light block
    ends dark and that finds a motion cycle at least [TIMEOUT] old (no
    rollover) with the LEDs enabled, the cycle ends, the LEDs are disabled
    and the LED pin is driven low, in this same iteration. *)
Theorem timeout_switches_leds_off (s : State) (w : World) :
  isDark (vars (lightBlock (clock w) s w)) = true ->
  ledsEnabled s = true -> motionDetected s = true ->
  is_ulong (motionStartTime s) -> is_ulong (clock w) ->
  motionStartTime s <= clock w ->
  TIMEOUT <= clock w - motionStartTime s ->
  ledsEnabled (vars (loop s w)) = false
  /\ ledLevel (env (loop s w)) = false
  /\ motionDetected (vars (loop s w)) = false
  /\ ledOnTime (vars (loop s w)) = ledOnTime s.
Proof.
  intros Hd Hon Hact Hs Hw Hle Hto.
  pose proof (loop_after_motion s w Hd) as Hend; cbv zeta in Hend.
  destruct (lightBlock_dark_frame s w (clock w) Hd) as [Hen [Hmd [Hst _]]].
  pose proof (pirSide_lightBlock (clock w) s w) as Hside.
  assert (Hlon : ledOnTime (vars (lightBlock (clock w) s w)) = ledOnTime s).
  { destruct (lightCheckDue s (clock w)) eqn:Hdue.
    - destruct (lightBlock_runs s w _ Hdue) as [Hv1 _]; rewrite Hv1.
      rewrite (keeps_adaptInterval ledOnTime) by reflexivity.
      rewrite (keeps_checkLight ledOnTime) by reflexivity; reflexivity.
    - rewrite (lightBlock_idle s w _ Hdue); reflexivity. }
  rewrite Hon in Hen; rewrite Hact in Hmd.
  revert Hend Hen Hmd Hst Hside Hlon; generalize (lightBlock (clock w) s w).
  intros r1 Hend Hen Hmd Hst Hside Hlon.
  unfold pirSide in Hside; injection Hside as _ _ Hc.
  assert (Hoff : motionDetected (vars (checkMotion (vars r1) (env r1)))
                 = false).
  { apply checkMotion_active; rewrite ?Hst, ?Hc; assumption. }
  assert (Hen2 : ledsEnabled (vars (checkMotion (vars r1) (env r1))) = true)
    by (rewrite (keeps_checkMotion ledsEnabled) by reflexivity; exact Hen).
  assert (Hlon2 : ledOnTime (vars (checkMotion (vars r1) (env r1)))
                  = ledOnTime s)
    by (rewrite (keeps_checkMotion ledOnTime) by reflexivity; exact Hlon).
  revert Hend Hoff Hen2 Hlon2; generalize (checkMotion (vars r1) (env r1)).
  intros r2 Hend Hoff Hen2 Hlon2.
  assert (Hne : ledsEnabled (vars r2) <> motionDetected (vars r2))
    by (rewrite Hen2, Hoff; discriminate).
  rewrite (updateLeds_change _ _ _ Hne), Hoff in Hend.
  cbn [vars env] in Hend.
  destruct (Hend eq_refl) as [H1 [H2 [_ [H4 H5]]]].
  rewrite H1, H2, H4, H5.
  cbn [ledsEnabled motionDetected ledOnTime ledLevel set_ledsEnabled].
  rewrite Hoff, Hlon2; repeat split.
Qed.

Lemma timeout_switches_leds_off_witness :
  isDark (vars (lightBlock 15500 ledsOn (steadyBoard 15500 false 0))) = true
  /\ ledsEnabled ledsOn = true /\ motionDetected ledsOn = true
  /\ is_ulong (motionStartTime ledsOn)
  /\ is_ulong (clock (steadyBoard 15500 false 0))
  /\ motionStartTime ledsOn <= clock (steadyBoard 15500 false 0)
  /\ TIMEOUT <= clock (steadyBoard 15500 false 0) - motionStartTime ledsOn
  /\ ledsEnabled (vars (loop ledsOn (steadyBoard 15500 false 0))) = false.
Proof.
  assert (H1 : isDark (vars (lightBlock (clock (steadyBoard 15500 false 0))
                               ledsOn (steadyBoard 15500 false 0))) = true)
    by (vm_compute; reflexivity).
  assert (H2 : ledsEnabled ledsOn = true) by (vm_compute; reflexivity).
  assert (H3 : motionDetected ledsOn = true) by (vm_compute; reflexivity).
  assert (H4 : is_ulong (motionStartTime ledsOn))
    by (vm_compute; split; [discriminate | reflexivity]).
  assert (H5 : is_ulong (clock (steadyBoard 15500 false 0)))
    by (vm_compute; split; [discriminate | reflexivity]).
  assert (H6 : motionStartTime ledsOn <= clock (steadyBoard 15500 false 0))
    by (vm_compute; discriminate).
  assert (H7 : TIMEOUT
               <= clock (steadyBoard 15500 false 0) - motionStartTime ledsOn)
    by (vm_compute; discriminate).
  repeat (split; [assumption |]).
  apply (timeout_switches_leds_off ledsOn (steadyBoard 15500 false 0)
           H1 H2 H3 H4 H5 H6 H7).
Defined.

(** ** The switch-on stamp *)

(** X15: [ledOnTime] is the timestamp of the iteration that last switched
    the LEDs on: after an iteration it holds the iteration's timestamp if
    the iteration started with [ledsEnabled] clear and ended with it set,
    and is unchanged in every other case. *)
Theorem ledOnTime_stamps_switch_on (s : State) (w : World) :
  ledOnTime (vars (loop s w))
  = if negb (ledsEnabled s) && ledsEnabled (vars (loop s w))
    then clock w else ledOnTime s.
Proof.
  destruct (loop_blocks s w) as [Hv _]; rewrite Hv; clear Hv.
  rewrite (keeps_runWatchdog ledsEnabled), (keeps_runWatchdog ledOnTime)
    by reflexivity.
  pose proof (lightBlock_leds_only_off s w (clock w)) as Hoff.
  pose proof (lightBlock_dark_frame s w (clock w)) as Hframe.
  assert (Hon : ledOnTime (vars (lightBlock (clock w) s w)) = ledOnTime s).
  { destruct (lightCheckDue s (clock w)) eqn:Hdue.
    - destruct (lightBlock_runs s w _ Hdue) as [Hv1 _]; rewrite Hv1.
      rewrite (keeps_adaptInterval ledOnTime) by reflexivity.
      rewrite (keeps_checkLight ledOnTime) by reflexivity; reflexivity.
    - rewrite (lightBlock_idle s w _ Hdue); reflexivity. }
  revert Hoff Hframe Hon; generalize (lightBlock (clock w) s w).
  intros r1 Hoff Hframe Hon.
  destruct (isDark (vars r1)) eqn:Hd.
  - destruct (Hframe eq_refl) as [Hen1 _].
    destruct (motionBlock_runs (clock w) (vars r1) (env r1) Hd) as [Hv2 _].
    rewrite Hv2; clear Hv2.
    assert (H1 : ledsEnabled (vars (checkMotion (vars r1) (env r1)))
                 = ledsEnabled (vars r1))
      by (apply (keeps_checkMotion ledsEnabled); reflexivity).
    assert (H2 : ledOnTime (vars (checkMotion (vars r1) (env r1)))
                 = ledOnTime (vars r1))
      by (apply (keeps_checkMotion ledOnTime); reflexivity).
    revert H1 H2; generalize (checkMotion (vars r1) (env r1)).
    intros r2 H1 H2.
    destruct (updateLeds_follows (clock w) (vars r2) (env r2)) as [Hen _].
    rewrite Hen, updateLeds_stamp, H1, H2, Hon, Hen1; reflexivity.
  - rewrite (motionBlock_skipped _ _ _ Hd); cbn [vars]; rewrite Hon.
    destruct (ledsEnabled s) eqn:Hs; cbn [negb andb]; [reflexivity |].
    rewrite (Hoff eq_refl); reflexivity.
Qed.
